(** * Mileage audit of the vehicle request application

    A shallow embedding of [app/utils.py] (the mileage parser, the alert
    sender and the audit) and of the submission handler of
    [app/routes_user.py], with the properties of the audit stated and proved
    over it.

    Conventions of the embedding:
    - a Python [str] is a [string]; a character is a code point below 256;
    - a Python [int] is a [Z];
    - a nullable column or value is an [option];
    - code that prints, sends mail or raises runs in the monad [M] over a
      [world] (table rows, process environment, trace of output events). *)

From Stdlib Require Import ZArith Lia Bool List Ascii String.
From Stdlib Require Import DecimalString DecimalPos.
From stdpp Require Import gmap strings.
Import ListNotations.

Local Open Scope Z_scope.
Local Open Scope string_scope.

(** ** Text helpers of the Python runtime *)

Module Py.

(** [str.isspace] on the code points below 256, the characters that
    [str.strip()] removes. *)
Definition is_space (c : ascii) : bool :=
  let n := N_of_ascii c in
  ((9 <=? n) && (n <=? 13) || (28 <=? n) && (n <=? 31)
   || (n =? 32) || (n =? 133) || (n =? 160))%N.

(** The characters that [int(str)] skips around the number: the separators
    0x1c..0x1f are whitespace for [str.strip] but not for [int]. *)
Definition is_int_space (c : ascii) : bool :=
  let n := N_of_ascii c in
  ((9 <=? n) && (n <=? 13) || (n =? 32) || (n =? 133) || (n =? 160))%N.

(** The information separators 0x1c..0x1f, the only characters on which
    the two tests above differ. *)
Definition is_separator (c : ascii) : bool :=
  let n := N_of_ascii c in ((28 <=? n) && (n <=? 31))%N.

Definition is_empty (s : string) : bool :=
  match s with EmptyString => true | String _ _ => false end.

Fixpoint lstrip_with (sp : ascii -> bool) (s : string) : string :=
  match s with
  | EmptyString => EmptyString
  | String c r => if sp c then lstrip_with sp r else s
  end.

Fixpoint rstrip_with (sp : ascii -> bool) (s : string) : string :=
  match s with
  | EmptyString => EmptyString
  | String c r =>
      let r' := rstrip_with sp r in
      if sp c && is_empty r' then EmptyString else String c r'
  end.

(** [s.strip()] *)
Definition strip (s : string) : string :=
  rstrip_with is_space (lstrip_with is_space s).

(** [s.replace(c, "")] for a one-character [c]. *)
Fixpoint remove_char (c : ascii) (s : string) : string :=
  match s with
  | EmptyString => EmptyString
  | String d r =>
      if Ascii.eqb d c then remove_char c r else String d (remove_char c r)
  end.

Fixpoint all_chars (p : ascii -> bool) (s : string) : bool :=
  match s with
  | EmptyString => true
  | String c r => p c && all_chars p r
  end.

Definition digit_value (c : ascii) : option Z :=
  let n := N_of_ascii c in
  if ((48 <=? n) && (n <=? 57))%N then Some (Z.of_N n - 48) else None.

(** The characters [str] writes for a number: digits and the sign. *)
Definition numeric (c : ascii) : bool :=
  match digit_value c with Some _ => true | None => Ascii.eqb c "-" end.

(** The digit loop of [int]: decimal digits, with single underscores
    allowed between two digits.  Returns the value read, the number of
    digits and the unread rest; [None] is a syntax error.  [prev_us] says
    that the previous character was an underscore. *)
Fixpoint scan_digits (s : string) (prev_us : bool) (acc : Z) (n : nat)
  : option (Z * nat * string) :=
  match s with
  | EmptyString => if prev_us then None else Some (acc, n, EmptyString)
  | String c r =>
      match digit_value c with
      | Some d => scan_digits r false (acc * 10 + d) (S n)
      | None =>
          if prev_us then None
          else if Ascii.eqb c "_" then scan_digits r true acc n
          else Some (acc, n, s)
      end
  end.

Definition split_sign (s : string) : bool * string :=
  match s with
  | String c r =>
      if Ascii.eqb c "-" then (true, r)
      else if Ascii.eqb c "+" then (false, r)
      else (false, s)
  | EmptyString => (false, s)
  end.

Definition starts_with_digit (s : string) : bool :=
  match s with
  | String c _ => match digit_value c with Some _ => true | None => false end
  | EmptyString => false
  end.

(** CPython refuses a literal of more than [limit] digits when the limit
    is set (non-zero); literals of up to 640 digits are never refused. *)
Definition too_many_digits (limit n : nat) : bool :=
  (640 <? n)%nat && (0 <? limit)%nat && (limit <? n)%nat.

(** [int(s)] for a [str] argument, base 10.  [None] stands for the
    [ValueError] that [int] raises on a malformed literal.  [limit] is the
    interpreter's [sys.get_int_max_str_digits()]. *)
Definition int (limit : nat) (s : string) : option Z :=
  let '(neg, body) := split_sign (lstrip_with is_int_space s) in
  if starts_with_digit body then
    match scan_digits body false 0 0 with
    | Some (v, n, rest) =>
        if all_chars is_int_space rest then
          if too_many_digits limit n then None
          else Some (if neg then - v else v)
        else None
    | None => None
    end
  else None.

(** [str(n)] for an [int]. *)
Definition str_of_int (n : Z) : string :=
  NilZero.string_of_int (Z.to_int n).

(** [str(n)] for a non-negative count such as [len(xs)]. *)
Definition str_of_nat (n : nat) : string := str_of_int (Z.of_nat n).

(** The text an f-string substitutes for a nullable value. *)
Definition fmt {A} (show : A -> string) (v : option A) : string :=
  match v with Some a => show a | None => "None" end.

Definition newline : string := String (ascii_of_nat 10) EmptyString.

End Py.

(** ** The data model ([app/models.py]) *)

(** A [db.Date] value. *)
Record date := Date { year : nat; month : nat; day : nat }.

(** [str(d)] for a date: ISO format, zero-padded. *)
Definition zfill (width : nat) (s : string) : string :=
  String.concat "" (repeat "0" (width - String.length s)) ++ s.

Definition isoformat (d : date) : string :=
  zfill 4 (Py.str_of_nat (year d)) ++ "-" ++
  zfill 2 (Py.str_of_nat (month d)) ++ "-" ++
  zfill 2 (Py.str_of_nat (day d)).

(** A row of the table [vehicle_request_form].  Every column but the primary
    key is nullable. *)
Module VehicleRequestForm.
Record t := Row {
  id : Z;
  name : option string;
  phone : option string;
  email : option string;
  vehicle : option string;
  dep_date : option date;
  ret_date : option date;
  start_mileage : option string;
  end_mileage : option string;
  destination : option string;
  purpose : option string;
  project : option string;
  comments : option string;
  submitted_time : option string;
  admin_comment : option string;
  status : option string
}.
End VehicleRequestForm.
Module V := VehicleRequestForm.

(** ** The world the code runs in *)

(** A [flask_mail.Message]. *)
Record Message := {
  subject : string;
  sender : string;
  recipients : list string;
  body : string
}.

(** What the process does that is visible from outside: a line printed on
    the standard output, a message handed to [mail.send]. *)
Inductive event :=
| Print (line : string)
| MailSend (msg : Message).

(** A raised instance of [Exception], with its [repr]. *)
Record exn := Exception { repr : string }.

Record world := World {
  table : list V.t;              (* the rows, in the order a scan returns them *)
  environ : gmap string string;  (* os.environ *)
  output : list event            (* oldest first *)
}.

Inductive outcome (A : Type) :=
| Returned (a : A)
| Raised (e : exn).
Arguments Returned {A} a.
Arguments Raised {A} e.

Definition M (A : Type) : Type := world -> outcome A * world.

Definition ret {A} (a : A) : M A := fun w => (Returned a, w).

Definition bind {A B} (c : M A) (k : A -> M B) : M B :=
  fun w =>
    match c w with
    | (Returned a, w') => k a w'
    | (Raised e, w') => (Raised e, w')
    end.

Definition raise {A} (e : exn) : M A := fun w => (Raised e, w).

(** [try: c  except Exception as e: h e] *)
Definition try_except {A} (c : M A) (h : exn -> M A) : M A :=
  fun w =>
    match c w with
    | (Returned a, w') => (Returned a, w')
    | (Raised e, w') => h e w'
    end.

Definition emit (e : event) : M unit :=
  fun w => (Returned tt,
            {| table := table w; environ := environ w;
               output := output w ++ [e] |}).

Definition print (line : string) : M unit := emit (Print line).

(** [os.environ.get(key, fallback)] *)
Definition environ_get (key fallback : string) : M string :=
  fun w => (Returned (default fallback (environ w !! key)), w).

Declare Scope py_scope.
Delimit Scope py_scope with py.
Notation "'do' x <- c ; k" := (bind c (fun x => k))
  (at level 10, x name, c at level 100, k at level 200) : py_scope.
Notation "c ;; k" := (bind c (fun _ => k))
  (at level 100, k at level 200, right associativity) : py_scope.

(** ** Queries on [VehicleRequestForm] *)

Module Query.

Definition eq_col (col : option string) (v : string) : bool :=
  match col with
  | Some c => String.eqb c v
  | None => false               (* NULL = v is not true *)
  end.

(** [.filter_by(vehicle=vehicle, status=status)] *)
Definition filter_by (vehicle status : string) (rows : list V.t) : list V.t :=
  List.filter (fun r => eq_col (V.vehicle r) vehicle && eq_col (V.status r) status)
         rows.

(** [.filter(VehicleRequestForm.id != i)] *)
Definition filter_id_ne (i : Z) (rows : list V.t) : list V.t :=
  List.filter (fun r => negb (V.id r =? i)%Z) rows.

Fixpoint insert_desc (r : V.t) (rows : list V.t) : list V.t :=
  match rows with
  | [] => [r]
  | x :: rest =>
      if (V.id x <? V.id r)%Z then r :: rows else x :: insert_desc r rest
  end.

(** [.order_by(VehicleRequestForm.id.desc())] *)
Definition order_by_id_desc (rows : list V.t) : list V.t :=
  fold_right insert_desc [] rows.

(** [.first()] *)
Definition first (rows : list V.t) : option V.t := head rows.

(** [.all()] *)
Definition all (rows : list V.t) : list V.t := rows.

(** [.get(i)]: the row whose primary key is [i]. *)
Definition get (i : Z) (rows : list V.t) : option V.t :=
  find (fun r => (V.id r =? i)%Z) rows.

(** Run a query against the table. *)
Definition run {A} (q : list V.t -> A) : M A :=
  fun w => (Returned (q (table w)), w).

End Query.

(** ** Mileage audit and alerting ([app/utils.py]) *)

(** A sibling row with its two mileage fields parsed. *)
Definition parsed_row : Type := V.t * Z * Z.

Section Audit.

(** The interpreter's limit on the digits of an integer literal:
    0 when the limit is off, 4300 by default. *)
Variable int_max_str_digits : nat.

(** The mail transport behind [mail.send]: for a message and the world it
    is sent in, [Some e] when the delivery raises [e]. *)
Variable transport : Message -> world -> option exn.

Local Open Scope py_scope.

Definition _get_alert_email : M string :=
  do v <- environ_get "ALERT_EMAIL" "yuhuitestict@gmail.com";
  ret (Py.strip v).

(** [parse_mileage_or_none(v)] for a [v] that is [None] or a [str]. *)
Definition parse_mileage_or_none (v : option string) : option Z :=
  match v with
  | None => None
  | Some v =>
      let s := Py.strip v in
      if Py.is_empty s then None
      else
        let s := Py.remove_char "," s in
        match Py.int int_max_str_digits s with
        | Some n => Some n
        | None => None          (* except ValueError *)
        end
  end.

(** [mail.send(msg)] *)
Definition mail_send (msg : Message) : M unit :=
  fun w =>
    let w' := snd (emit (MailSend msg) w) in
    match transport msg w with
    | Some e => (Raised e, w')
    | None => (Returned tt, w')
    end.

Definition send_mileage_error_alert (subject body : string) : M unit :=
  do alert_email <- _get_alert_email;
  if Py.is_empty alert_email then
    print "[MileageAudit] ALERT_EMAIL not set; skipping email."
  else
    try_except
      (mail_send {| subject := subject; sender := alert_email;
                    recipients := [alert_email]; body := body |})
      (fun e => print ("[MileageAudit] Email send failed: " ++ repr e)).

(** The steps of [audit_vehicle_mileage_and_alert] that only compute. *)

(** [rec.status != "submitted"] *)
Definition status_ne (r : V.t) (s : string) : bool :=
  match V.status r with
  | Some st => negb (String.eqb st s)
  | None => true
  end.

Definition validity_issues (s0 e0 : option Z) : list string :=
  match s0, e0 with
  | Some s, Some e =>
      if (e <? s)%Z then
        ["End mileage < start mileage (" ++ Py.str_of_int s ++ " -> "
           ++ Py.str_of_int e ++ ")."]
      else []
  | _, _ => ["Invalid or missing mileage on submitted record."]
  end.

(** The loop over [others] that fills [parsed]. *)
Fixpoint parse_rows (others : list V.t) : list parsed_row :=
  match others with
  | [] => []
  | r :: rest =>
      match parse_mileage_or_none (V.start_mileage r),
            parse_mileage_or_none (V.end_mileage r) with
      | Some s, Some e => (r, s, e) :: parse_rows rest
      | _, _ => parse_rows rest       (* continue *)
      end
  end.

(** The overlap test of the loop over [parsed]. *)
Definition overlapping (s0 e0 : Z) (p : parsed_row) : bool :=
  let '(_, s, e) := p in ((s0 <? e) && (e0 >? s))%Z.

Definition find_overlaps (s0 e0 : option Z) (parsed : list parsed_row)
  : list parsed_row :=
  match s0, e0 with
  | Some s0, Some e0 => List.filter (overlapping s0 e0) parsed
  | _, _ => []
  end.

Definition overlap_issues (overlaps : list parsed_row) : list string :=
  match overlaps with
  | [] => []
  | _ :: _ =>
      ["Overlapping mileage range detected with "
         ++ Py.str_of_nat (length overlaps) ++ " other record(s)."]
  end.

Definition gap_issues (s0 : option Z) (prev : option V.t) : list string :=
  match prev, s0 with
  | Some prev, Some s0 =>
      match parse_mileage_or_none (V.end_mileage prev) with
      | Some prev_e =>
          let gap := (s0 - prev_e)%Z in
          if (gap >? 5)%Z then
            ["Gap > 5 miles detected to the previous record."]
          else []
      | None => []
      end
  | _, _ => []
  end.

Definition alert_subject (vehicle : string) (rec : V.t) : string :=
  "[Vehicle Mileage Check] " ++ vehicle ++ " - Submitted Record #"
    ++ Py.str_of_int (V.id rec).

Definition overlap_line (p : parsed_row) : string :=
  let '(r, s, e) := p in
  "  - Record ID: " ++ Py.str_of_int (V.id r)
    ++ ", Name: " ++ Py.fmt (fun x => x) (V.name r)
    ++ ", Start mileage: " ++ Py.str_of_int s
    ++ ", End mileage: " ++ Py.str_of_int e ++ Py.newline.

(** The list [body], joined. *)
Definition alert_body (rec : V.t) (s0 e0 : option Z) (issues : list string)
    (overlaps : list parsed_row) : string :=
  let nl := Py.newline in
  let str (v : option string) := Py.fmt (fun x => x) v in
  let header :=
    [ "Mileage audit detected potential issues." ++ nl ++ nl;
      "Submitted record:" ++ nl;
      "  - Record ID: " ++ Py.str_of_int (V.id rec) ++ nl;
      "    Name: " ++ str (V.name rec) ++ nl;
      "    User Email: " ++ str (V.email rec) ++ nl;
      "    Vehicle: " ++ str (V.vehicle rec) ++ nl;
      "    Departure date: " ++ Py.fmt isoformat (V.dep_date rec) ++ nl;
      "    Return date: " ++ Py.fmt isoformat (V.ret_date rec) ++ nl;
      "    Start mileage: " ++ Py.fmt Py.str_of_int s0 ++ nl;
      "    End mileage: " ++ Py.fmt Py.str_of_int e0 ++ nl;
      "    Submitted Time: " ++ str (V.submitted_time rec) ++ nl ++ nl;
      "Findings:" ++ nl ] in
  let findings := map (fun it => "  - " ++ it ++ nl) issues in
  let listing :=
    match overlaps with
    | [] => []
    | _ :: _ =>
        (nl ++ "Overlapping record(s):" ++ nl) :: map overlap_line overlaps
    end in
  String.concat "" (header ++ findings ++ listing)%list.

(** The two sibling queries. *)
Definition others_query (vehicle : string) (rec : V.t) (rows : list V.t)
  : list V.t :=
  Query.all
    (Query.filter_id_ne (V.id rec) (Query.filter_by vehicle "submitted" rows)).

Definition prev_query (vehicle : string) (rec : V.t) (rows : list V.t)
  : option V.t :=
  Query.first
    (Query.order_by_id_desc
       (Query.filter_id_ne (V.id rec)
          (Query.filter_by vehicle "submitted" rows))).

Definition audit_vehicle_mileage_and_alert (record_id : Z) : M unit :=
  do rec <- Query.run (Query.get record_id);
  match rec with
  | None => ret tt
  | Some rec =>
    if status_ne rec "submitted" then ret tt
    else
      let vehicle := Py.strip (default "" (V.vehicle rec)) in
      if Py.is_empty vehicle then ret tt
      else
        let s0 := parse_mileage_or_none (V.start_mileage rec) in
        let e0 := parse_mileage_or_none (V.end_mileage rec) in
        let issues := validity_issues s0 e0 in
        do others <- Query.run (others_query vehicle rec);
        let parsed := parse_rows others in
        let overlaps := find_overlaps s0 e0 parsed in
        let issues := (issues ++ overlap_issues overlaps)%list in
        do prev <- Query.run (prev_query vehicle rec);
        let issues := (issues ++ gap_issues s0 prev)%list in
        match issues with
        | [] => ret tt
        | _ :: _ =>
            send_mileage_error_alert
              (alert_subject vehicle rec)
              (alert_body rec s0 e0 issues overlaps)
        end
  end.

(** What a run of the audit finds on the rows: the values of the local
    variables of [audit_vehicle_mileage_and_alert] when line 159 is
    reached, [None] when the function has returned before (no such
    record, not submitted, blank vehicle). *)
Record findings := Findings {
  target : V.t;                  (* rec *)
  vehicle_key : string;          (* vehicle *)
  start0 : option Z;             (* s0 *)
  end0 : option Z;               (* e0 *)
  siblings : list V.t;           (* others *)
  overlaps : list parsed_row;
  previous : option V.t;         (* prev *)
  issues : list string
}.

Definition audit_findings (rows : list V.t) (record_id : Z)
  : option findings :=
  match Query.get record_id rows with
  | None => None
  | Some rec =>
    if status_ne rec "submitted" then None
    else
      let vehicle := Py.strip (default "" (V.vehicle rec)) in
      if Py.is_empty vehicle then None
      else
        let s0 := parse_mileage_or_none (V.start_mileage rec) in
        let e0 := parse_mileage_or_none (V.end_mileage rec) in
        let others := others_query vehicle rec rows in
        let overlaps := find_overlaps s0 e0 (parse_rows others) in
        let prev := prev_query vehicle rec rows in
        Some {| target := rec; vehicle_key := vehicle;
                start0 := s0; end0 := e0;
                siblings := others; overlaps := overlaps;
                previous := prev;
                issues := ((validity_issues s0 e0
                              ++ overlap_issues overlaps)
                             ++ gap_issues s0 prev)%list |}
  end.

(** The issues a run collects; none when the run returns early. *)
Definition audit_issues (rows : list V.t) (record_id : Z) : list string :=
  match audit_findings rows record_id with
  | Some f => issues f
  | None => []
  end.

(** The alert (subject, body) built from findings that hold an issue. *)
Definition alert_of (f : option findings) : option (string * string) :=
  match f with
  | Some f =>
      match issues f with
      | [] => None
      | _ :: _ =>
          Some (alert_subject (vehicle_key f) (target f),
                alert_body (target f) (start0 f) (end0 f) (issues f)
                           (overlaps f))
      end
  | None => None
  end.

(** Lines 159-186: nothing without an alert, else one call of the
    notifier. *)
Definition dispatch (alert : option (string * string)) : M unit :=
  match alert with
  | None => ret tt
  | Some (subject, body) => send_mileage_error_alert subject body
  end.

End Audit.

(** ** The end of the submission handler ([vehicle_form], after the commit) *)

Inductive response :=
| Redirect (endpoint : string).

Section Submission.

(** The audit the handler calls; any computation may stand here. *)
Variable audit : Z -> M unit.

Local Open Scope py_scope.

(** [action != "save"], [action] being [request.form.get("action")]. *)
Definition action_ne (action : option string) (s : string) : bool :=
  match action with
  | Some a => negb (String.eqb a s)
  | None => true
  end.

(** Lines 268-277 of [vehicle_form]: the record is committed, its id is
    [record_id]. *)
Definition vehicle_form_committed (action : option string) (record_id : Z)
  : M response :=
  (if action_ne action "save" then
     try_except
       (audit record_id)
       (fun e => print ("[MileageAudit] Audit failed: " ++ repr e))
   else ret tt) ;;
  if negb (action_ne action "save") then
    ret (Redirect "user.user_my_forms")
  else ret (Redirect "user.form_submitted").

End Submission.

(** ** Words of the specification *)

(** [r] is another submitted record whose vehicle column is [veh]. *)
Definition sibling_of (veh : option string) (rec r : V.t) : Prop :=
  V.vehicle r = veh /\ V.status r = Some "submitted" /\ V.id r <> V.id rec.

(** [p] is the row of [rows] with the largest id among the siblings. *)
Definition latest_sibling (veh : option string) (rows : list V.t)
    (rec p : V.t) : Prop :=
  In p rows /\ sibling_of veh rec p /\
  forall q, In q rows -> sibling_of veh rec q -> V.id q <= V.id p.

Definition gap_message : string :=
  "Gap > 5 miles detected to the previous record.".

(** The head of a list dominates it. *)
Definition head_is_max (rows : list V.t) : Prop :=
  forall h, head rows = Some h -> forall q, In q rows -> V.id q <= V.id h.

(** The primary key: no two rows share an id. *)
Definition primary_key (rows : list V.t) : Prop :=
  List.NoDup (map V.id rows).

(** [w] with the events [es] added to its output, nothing else changed. *)
Definition logged (w : world) (es : list event) : world :=
  {| table := table w; environ := environ w; output := (output w ++ es)%list |}.

(** The address [_get_alert_email] resolves to in [w]. *)
Definition alert_email_in (w : world) : string :=
  Py.strip (default "yuhuitestict@gmail.com" (environ w !! "ALERT_EMAIL")).

(** The message [send_mileage_error_alert] builds in [w]. *)
Definition alert_message (w : world) (subj text : string) : Message :=
  {| subject := subj; sender := alert_email_in w;
     recipients := [alert_email_in w]; body := text |}.

Definition is_mail (e : event) : bool :=
  match e with MailSend _ => true | Print _ => false end.

(** ** Sample data *)

(** A submitted trip of vehicle [veh] from [s] to [e]. *)
Definition trip (i : Z) (veh s e : string) : V.t :=
  {| V.id := i; V.name := Some "Ann"; V.phone := None;
     V.email := Some "ann@example.org"; V.vehicle := Some veh;
     V.dep_date := Some (Date 2024 3 7); V.ret_date := None;
     V.start_mileage := Some s; V.end_mileage := Some e;
     V.destination := None; V.purpose := None; V.project := None;
     V.comments := None; V.submitted_time := Some "03-07-2024";
     V.admin_comment := Some ""; V.status := Some "submitted" |}.

(** Trip 5 overlaps trip 10. *)
Definition overlap_rows : list V.t :=
  [trip 5 "2022 RAM" "1100" "1,200"; trip 10 "2022 RAM" "1150" "1250"].

(** Trip 10 stays at mileage 100, inside the range of trip 5. *)
Definition zero_width_rows : list V.t :=
  [trip 5 "2022 RAM" "50" "150"; trip 10 "2022 RAM" "100" "100"].

(** Trip 10 starts 10 miles after the end of trip 5. *)
Definition gap_rows : list V.t :=
  [trip 5 "2022 RAM" "1100" "1200"; trip 10 "2022 RAM" "1210" "1300"].

(** Two trips of a vehicle whose name was stored with a trailing blank. *)
Definition padded_rows : list V.t :=
  [trip 1 "RAM " "0" "100"; trip 2 "RAM " "200" "300"].

(** The same two trips with the name stored without the blank. *)
Definition unpadded_rows : list V.t :=
  [trip 1 "RAM" "0" "100"; trip 2 "RAM" "200" "300"].

(** A world without output, ALERT_EMAIL unset. *)
Definition quiet (rows : list V.t) : world :=
  {| table := rows; environ := ∅; output := [] |}.

(** A world whose ALERT_EMAIL is blank. *)
Definition no_recipient (rows : list V.t) : world :=
  {| table := rows; environ := {[ "ALERT_EMAIL" := "  " ]}; output := [] |}.

Definition delivering : Message -> world -> option exn := fun _ _ => None.

Definition smtp_down : exn := Exception "SMTPServerDisconnected()".
Definition refusing : Message -> world -> option exn :=
  fun _ _ => Some smtp_down.

Definition store_down : exn := Exception "OperationalError()".
Definition broken_audit : Z -> M unit := fun _ => raise store_down.

(** ** Further helpers of the application *)

(** More of the Python runtime: prefix test, slices, the thousands format. *)
Module PyStr.

(** [s.startswith(prefix)] *)
Fixpoint startswith (s prefix : string) : bool :=
  match prefix, s with
  | EmptyString, _ => true
  | String _ _, EmptyString => false
  | String a p, String b r => Ascii.eqb a b && startswith r p
  end.

(** [s[n:]] *)
Fixpoint drop (n : nat) (s : string) : string :=
  match n, s with
  | O, _ => s
  | S _, EmptyString => EmptyString
  | S m, String _ r => drop m r
  end.

(** [s[:n]] *)
Fixpoint take (n : nat) (s : string) : string :=
  match n, s with
  | O, _ => EmptyString
  | S _, EmptyString => EmptyString
  | S m, String c r => String c (take m r)
  end.

(** The digits of a number with a comma before every group of three
    digits counted from the right. *)
Fixpoint group_thousands (digits : string) : string :=
  match digits with
  | EmptyString => EmptyString
  | String c r =>
      String c
        (if negb (Py.is_empty r) && (String.length r mod 3 =? 0)%nat
         then String "," (group_thousands r)
         else group_thousands r)
  end.

(** [f"{n:,}"] for an [int]. *)
Definition format_commas (n : Z) : string :=
  if (n <? 0)%Z then String "-" (group_thousands (Py.str_of_int (- n)))
  else group_thousands (Py.str_of_int n).

End PyStr.

(** [_normalize_database_url] of [app/__init__.py]. *)
Definition _normalize_database_url (url : string) : string :=
  if PyStr.startswith url "postgres://" then
    "postgresql://" ++ PyStr.drop (String.length "postgres://") url
  else url.

(** [SecureModelView._truncate] of [app/admin_views.py], on the value
    [getattr(model, name)] of a text column. *)
Definition _truncate (value : option string) : option string :=
  match value with
  | Some v =>
      if negb (Py.is_empty v) && (40 <? String.length v)%nat then
        Some (PyStr.take 40 v ++ "...")
      else value
  | None => value
  end.

Section Commas.

Variable int_max_str_digits : nat.

(** [f"{float(value):,.0f}"] for a [str]; [None] when [float] raises
    [ValueError].  Floating point is left to the interpreter. *)
Variable float_commas : string -> option string.

(** The template filter [comma] of [app/utils.py], on a value that is
    [None] or a [str]. *)
Definition comma_format (value : option string) : string :=
  match value with
  | None => ""
  | Some v =>
      if String.eqb v "" then ""
      else
        match Py.int int_max_str_digits v with
        | Some n => PyStr.format_commas n
        | None =>                       (* except (ValueError, TypeError) *)
            match float_commas v with
            | Some text => text
            | None => v                 (* except (ValueError, TypeError) *)
            end
        end
  end.

(** [SecureModelView._format_commas] of [app/admin_views.py], on the value
    [getattr(model, name)] of a mileage column. *)
Definition _format_commas (value : option string) : string :=
  match value with
  | None => ""
  | Some v =>
      if String.eqb v "" then ""
      else
        match Py.int int_max_str_digits v with
        | Some num => PyStr.format_commas num
        | None =>
            match float_commas v with
            | Some text => text
            | None => v
            end
        end
  end.

End Commas.

(** The characters of a text that [int] accepts: blanks, a sign, digits and
    underscores. *)
Definition int_char (c : ascii) : bool :=
  Py.is_int_space c || Ascii.eqb c "+" || Ascii.eqb c "_" || Py.numeric c.

(** The characters of [f"{n:,}"]: digits, the sign and commas. *)
Definition grouped_char (c : ascii) : bool :=
  Py.numeric c || Ascii.eqb c ",".

(** ** The form handlers of [app/routes_user.py] in full *)

(** [parse_date_or_none] of [app/utils.py] and the handlers [vehicle_form]
    and [user_view_form], for a logged-in user. *)

(** An HTTP request: its method, query string and form fields. *)
Record request := {
  method : string;
  args : gmap string string;     (* request.args *)
  form : gmap string string      (* request.form *)
}.

(** What a handler answers. *)
Inductive reply :=
| UnauthorizedDraft              (* "Unauthorized draft", 403 *)
| Unauthorized                   (* "Unauthorized", 403 *)
| NotFound                       (* get_or_404 *)
| Redirected (r : response)
| FormPage (last_end_mileage : option string) (user_email : string)
           (record : option V.t)             (* form.html *)
| ReadOnlyPage (model : V.t).                (* form_readonly.html *)

(** [db.session.add(record); db.session.commit()] for a row that is in the
    table: the row of that id is replaced where it stands. *)
Fixpoint replace_row (r : V.t) (rows : list V.t) : list V.t :=
  match rows with
  | [] => []
  | x :: rest =>
      if (V.id x =? V.id r)%Z then r :: rest else x :: replace_row r rest
  end.

(** The same for a new row: it comes last. *)
Definition insert_row (r : V.t) (rows : list V.t) : list V.t :=
  (rows ++ [r])%list.

Definition commit (change : list V.t -> list V.t) : M unit :=
  fun w => (Returned tt,
            {| table := change (table w); environ := environ w;
               output := output w |}).

(** [col != s] in Python, for a nullable column. *)
Definition field_ne (col : option string) (s : string) : bool :=
  match col with
  | Some c => negb (String.eqb c s)
  | None => true
  end.

(** Truth of an optional [int]: [None] and 0 are false. *)
Definition truthy (x : option Z) : bool :=
  match x with
  | Some n => negb (n =? 0)%Z
  | None => false
  end.

Section Handlers.

Variable int_max_str_digits : nat.
Variable transport : Message -> world -> option exn.

(** [datetime.strptime(s, fmt).date()]: the date read, or the [ValueError]
    raised.  Reading dates is left to the interpreter. *)
Variable strptime : string -> string -> outcome date.

(** The request context: [current_user.email], the text of
    [datetime.now().strftime("%m-%d-%Y")] and the id the database gives
    to a new row. *)
Variable user_email : string.
Variable today : string.
Variable next_id : Z.

Local Open Scope py_scope.

Definition parse_date_or_none (s : option string) : M (option date) :=
  let s := Py.strip (default "" s) in
  if Py.is_empty s then ret None
  else
    match strptime s "%Y-%m-%d" with
    | Returned d => ret (Some d)
    | Raised e => raise e
    end.

(** [m.get(key, type=int)] of a request dictionary. *)
Definition get_int (m : gmap string string) (key : string) : option Z :=
  match m !! key with
  | Some v => Py.int int_max_str_digits v
  | None => None
  end.

(** [request.args.get("draft_id", type=int) or
     request.form.get("draft_id", type=int)] *)
Definition draft_id_of (req : request) : option Z :=
  let a := get_int (args req) "draft_id" in
  if truthy a then a else get_int (form req) "draft_id".

(** [VehicleRequestForm(email=current_user.email)], with the id it gets
    when it is flushed. *)
Definition new_record : V.t :=
  {| V.id := next_id; V.name := None; V.phone := None;
     V.email := Some user_email; V.vehicle := None;
     V.dep_date := None; V.ret_date := None;
     V.start_mileage := None; V.end_mileage := None;
     V.destination := None; V.purpose := None; V.project := None;
     V.comments := None; V.submitted_time := None;
     V.admin_comment := None; V.status := None |}.

(** The assignments of lines 250-263 to [record]. *)
Definition fill (req : request) (dep_date ret_date : option date)
    (record : V.t) : V.t :=
  let field key := Some (default "" (form req !! key)) in
  {| V.id := V.id record;
     V.name := field "name";
     V.phone := field "phone";
     V.email := V.email record;
     V.vehicle := field "vehicle";
     V.dep_date := dep_date;
     V.ret_date := ret_date;
     V.start_mileage := field "start_mileage";
     V.end_mileage := field "end_mileage";
     V.destination := field "destination";
     V.purpose := field "purpose";
     V.project := field "project";
     V.comments := field "comments";
     V.submitted_time := Some today;
     V.admin_comment := Some "";
     V.status :=
       Some (if action_ne (form req !! "action") "save"
             then "submitted" else "draft") |}.

(** The record a request works on: the row [draft_id], for its owner. *)
Definition load_draft (draft_id : option Z) : M (option V.t) :=
  do record <- Query.run (Query.get (default 0 draft_id));
  match record with
  | None => ret None
  | Some record =>
      if field_ne (V.email record) user_email then ret None
      else ret (Some record)
  end.

(** [.filter_by(status="submitted").order_by(id.desc()).first()] *)
Definition last_submitted (rows : list V.t) : option V.t :=
  Query.first
    (Query.order_by_id_desc
       (List.filter (fun r => Query.eq_col (V.status r) "submitted") rows)).

Definition vehicle_form (req : request) : M reply :=
  let draft_id := draft_id_of req in
  if String.eqb (method req) "POST" then
    let action := form req !! "action" in
    do dep_date <- parse_date_or_none (form req !! "dep_date");
    do ret_date <- parse_date_or_none (form req !! "ret_date");
    do found <-
      (if truthy draft_id then
         do record <- load_draft draft_id;
         match record with
         | None => ret None
         | Some record => ret (Some (record, replace_row))
         end
       else ret (Some (new_record, insert_row)));
    match found with
    | None => ret UnauthorizedDraft
    | Some (record, add) =>
        let record := fill req dep_date ret_date record in
        commit (add record) ;;
        do r <- vehicle_form_committed
                  (audit_vehicle_mileage_and_alert int_max_str_digits transport)
                  action (V.id record);
        ret (Redirected r)
    end
  else
    do found <-
      (if truthy draft_id then
         do record <- load_draft draft_id;
         match record with
         | None => ret None
         | Some record => ret (Some (Some record))
         end
       else ret (Some None));
    match found with
    | None => ret UnauthorizedDraft
    | Some record =>
        do last <- Query.run last_submitted;
        let last_end_mileage :=
          match last with
          | Some last => V.end_mileage last
          | None => Some ""
          end in
        ret (FormPage last_end_mileage user_email record)
    end.

Definition user_view_form (form_id : Z) : M reply :=
  do record <- Query.run (Query.get form_id);
  match record with
  | None => ret NotFound
  | Some record =>
      if field_ne (V.email record) user_email then ret Unauthorized
      else ret (ReadOnlyPage record)
  end.

End Handlers.

(** A row belongs to the user. *)
Definition owned_by (user_email : string) (r : V.t) : bool :=
  negb (field_ne (V.email r) user_email).

(** The id is not in use. *)
Definition fresh_id (i : Z) (rows : list V.t) : Prop :=
  forall r, In r rows -> V.id r <> i.

(** A world with another table. *)
Definition with_table (w : world) (rows : list V.t) : world :=
  {| table := rows; environ := environ w; output := output w |}.

(** A submitted row without regard to its vehicle. *)
Definition submitted (r : V.t) : Prop := V.status r = Some "submitted".

(** A submission of a trip by Ann. *)
Definition ann_post (action : string) (fields : list (string * string))
  : request :=
  {| method := "POST"; args := ∅;
     form := list_to_map (("action", action) :: fields) |}.

Definition trip_fields (veh s e : string) : list (string * string) :=
  [("name", "Ann"); ("vehicle", veh);
   ("start_mileage", s); ("end_mileage", e)].

(** A reader of dates that refuses every text. *)
Definition no_dates : string -> string -> outcome date :=
  fun _ _ => Raised (Exception "ValueError()").

Definition invalid_message : string :=
  "Invalid or missing mileage on submitted record.".

(** The row of that id as far as the user may work on it: none when it is
    missing or belongs to somebody else. *)
Definition draft_of (user_email : string) (rows : list V.t) (i : Z)
  : option V.t :=
  match Query.get i rows with
  | Some r => if field_ne (V.email r) user_email then None else Some r
  | None => None
  end.

(** The answer and the world after the commit of [r], which makes the
    table [rows]: the audit of [r] has run unless the action is "save". *)
Definition committed (int_max_str_digits : nat)
    (transport : Message -> world -> option exn)
    (req : request) (w : world) (rows : list V.t) (r : V.t)
  : outcome reply * world :=
  let action := form req !! "action" in
  (Returned (Redirected (Redirect (if action_ne action "save"
                                   then "user.form_submitted"
                                   else "user.user_my_forms"))),
   if action_ne action "save"
   then snd (audit_vehicle_mileage_and_alert int_max_str_digits transport
               (V.id r) (with_table w rows))
   else with_table w rows).

(** ** More sample data *)

(** Trip 10 has a start mileage that is no number. *)
Definition invalid_rows : list V.t :=
  [trip 5 "2022 RAM" "100" "200"; trip 10 "2022 RAM" "abc" "150"].

(** A trip of another user. *)
Definition bob_trip : V.t :=
  {| V.id := 7; V.name := Some "Bob"; V.phone := None;
     V.email := Some "bob@example.org"; V.vehicle := Some "2012 F250";
     V.dep_date := None; V.ret_date := None;
     V.start_mileage := Some "10"; V.end_mileage := Some "90";
     V.destination := None; V.purpose := None; V.project := None;
     V.comments := None; V.submitted_time := Some "03-01-2024";
     V.admin_comment := Some ""; V.status := Some "submitted" |}.

Definition shared_rows : list V.t :=
  [trip 5 "2022 RAM" "1100" "1200"; bob_trip].

(** Ann asks for the form, without a draft. *)
Definition ann_get : request :=
  {| method := "GET"; args := ∅; form := ∅ |}.

(** Ann asks for the record 7 as her draft. *)
Definition ann_get_draft_7 : request :=
  {| method := "GET"; args := {[ "draft_id" := "7" ]}; form := ∅ |}.

(** * Properties *)

Section MonadFacts.

Lemma logged_nil w : logged w [] = w.
Proof. destruct w; unfold logged; simpl. now rewrite app_nil_r. Qed.

Lemma logged_logged w es es' :
  logged (logged w es) es' = logged w (es ++ es')%list.
Proof. unfold logged; simpl. now rewrite app_assoc. Qed.

Lemma emit_run e w : emit e w = (Returned tt, logged w [e]).
Proof. reflexivity. Qed.

Lemma table_logged w es : table (logged w es) = table w.
Proof. reflexivity. Qed.

Lemma environ_logged w es : environ (logged w es) = environ w.
Proof. reflexivity. Qed.

End MonadFacts.

Section AlertFacts.

Variable int_max_str_digits : nat.
Variable transport : Message -> world -> option exn.

Local Abbreviation send := (send_mileage_error_alert transport).
Local Abbreviation audit :=
  (audit_vehicle_mileage_and_alert int_max_str_digits transport).
Local Abbreviation findings_of := (audit_findings int_max_str_digits).

(** Every run of the alert sender, case by case. *)
Lemma send_run subj text w :
  send subj text w =
  if Py.is_empty (alert_email_in w) then
    (Returned tt,
     logged w [Print "[MileageAudit] ALERT_EMAIL not set; skipping email."])
  else
    match transport (alert_message w subj text) w with
    | None => (Returned tt, logged w [MailSend (alert_message w subj text)])
    | Some e =>
        (Returned tt,
         logged w [MailSend (alert_message w subj text);
                   Print ("[MileageAudit] Email send failed: " ++ repr e)])
    end.
Proof.
  unfold send_mileage_error_alert, _get_alert_email, bind, environ_get, ret.
  fold (alert_email_in w).
  destruct (Py.is_empty (alert_email_in w)); [reflexivity|].
  unfold try_except, mail_send, alert_message. simpl.
  destruct (transport _ w); [|reflexivity].
  unfold print, emit, logged; simpl. now rewrite <- app_assoc.
Qed.

(** The sender returns normally and only adds output. *)
Lemma send_returns subj text w :
  exists es, es <> [] /\ send subj text w = (Returned tt, logged w es).
Proof.
  rewrite send_run.
  destruct (Py.is_empty _); [eexists; split; [|reflexivity]; discriminate|].
  destruct (transport _ w); eexists; (split; [|reflexivity]); discriminate.
Qed.

(** The audit is its findings on the table, then the dispatch of the
    alert built from them. *)
Lemma audit_run record_id w :
  audit record_id w = dispatch transport (alert_of (findings_of (table w) record_id)) w.
Proof.
  unfold audit_vehicle_mileage_and_alert, audit_findings, bind, Query.run.
  destruct (Query.get record_id (table w)) as [rec|]; [|reflexivity].
  destruct (status_ne rec "submitted"); [reflexivity|].
  destruct (Py.is_empty _); [reflexivity|].
  unfold alert_of; simpl.
  destruct ((_ ++ _) ++ _)%list; reflexivity.
Qed.

Lemma dispatch_none w : dispatch transport None w = (Returned tt, w).
Proof. reflexivity. Qed.

Lemma alert_of_none_iff rows record_id :
  alert_of (findings_of rows record_id) = None <->
  audit_issues int_max_str_digits rows record_id = [].
Proof.
  unfold alert_of, audit_issues.
  destruct (findings_of rows record_id) as [f|]; [|tauto].
  destruct (issues f); split; congruence.
Qed.

Lemma logged_output_same w es : output (logged w es) = output w <-> es = [].
Proof.
  simpl; split; intros H; [|subst; apply app_nil_r].
  apply (app_inv_head (output w)). now rewrite app_nil_r.
Qed.

(** A run returns normally and only adds output; it adds none exactly when
    no issue was collected. *)
Lemma audit_returns record_id w :
  exists es,
    audit record_id w = (Returned tt, logged w es) /\
    (es = [] <-> audit_issues int_max_str_digits (table w) record_id = []).
Proof.
  rewrite audit_run. setoid_rewrite <- alert_of_none_iff.
  destruct (alert_of _) as [[subj text]|]; simpl.
  - destruct (send_returns subj text w) as (es & Hne & ->).
    exists es; split; [reflexivity|]. split; [tauto | discriminate].
  - exists []. rewrite logged_nil. unfold ret. tauto.
Qed.

Lemma audit_table record_id w :
  table (snd (audit record_id w)) = table w /\
  environ (snd (audit record_id w)) = environ w.
Proof. destruct (audit_returns record_id w) as (es & -> & _). now split. Qed.

(** Early returns leave no findings. *)
Lemma findings_missing rows record_id :
  Query.get record_id rows = None -> findings_of rows record_id = None.
Proof. unfold audit_findings; now intros ->. Qed.

Lemma status_ne_true rec s :
  V.status rec <> Some s -> status_ne rec s = true.
Proof.
  unfold status_ne; destruct (V.status rec) as [st|]; [|reflexivity].
  intros H. destruct (String.eqb_spec st s); [subst; congruence|reflexivity].
Qed.

Lemma findings_not_submitted rows record_id rec :
  Query.get record_id rows = Some rec ->
  V.status rec <> Some "submitted" ->
  findings_of rows record_id = None.
Proof.
  unfold audit_findings; intros -> H. now rewrite status_ne_true.
Qed.

Lemma findings_blank_vehicle rows record_id rec :
  Query.get record_id rows = Some rec ->
  Py.strip (default "" (V.vehicle rec)) = "" ->
  findings_of rows record_id = None.
Proof.
  unfold audit_findings; intros -> H. rewrite H.
  now destruct (status_ne rec "submitted").
Qed.

(** C5: for every record id the audit calls the notifier exactly when at
    least one issue is collected; a run on a missing record, on a record
    that is not submitted (a draft, whatever its mileage), on a blank
    vehicle or without issues changes nothing, output included. *)
Theorem audit_alerts_iff_issues record_id w :
  (* with issues: the run is one call of the notifier on the alert *)
  (forall f, findings_of (table w) record_id = Some f ->
     issues f <> [] ->
     audit record_id w =
     send (alert_subject (vehicle_key f) (target f))
          (alert_body (target f) (start0 f) (end0 f) (issues f) (overlaps f))
          w) /\
  (* without: nothing happens *)
  (audit_issues int_max_str_digits (table w) record_id = [] ->
     audit record_id w = (Returned tt, w)) /\
  (* the call shows in the output, so the two cases exclude each other *)
  (output (snd (audit record_id w)) = output w <->
     audit_issues int_max_str_digits (table w) record_id = []) /\
  (* the early returns *)
  (Query.get record_id (table w) = None ->
     audit record_id w = (Returned tt, w)) /\
  (forall rec, Query.get record_id (table w) = Some rec ->
     V.status rec <> Some "submitted" ->
     audit record_id w = (Returned tt, w)) /\
  (forall rec, Query.get record_id (table w) = Some rec ->
     Py.strip (default "" (V.vehicle rec)) = "" ->
     audit record_id w = (Returned tt, w)).
Proof.
  repeat split.
  - intros f Hf Hne. rewrite audit_run, Hf. unfold alert_of.
    destruct (issues f); [congruence | reflexivity].
  - intros H. apply alert_of_none_iff in H. now rewrite audit_run, H.
  - destruct (audit_returns record_id w) as (es & -> & Hes).
    intros H; apply Hes. now apply logged_output_same in H.
  - destruct (audit_returns record_id w) as (es & -> & Hes).
    intros H; apply Hes in H; subst. now rewrite logged_nil.
  - intros H. now rewrite audit_run, findings_missing.
  - intros rec H Hs. now rewrite audit_run, (findings_not_submitted _ _ rec).
  - intros rec H Hs. now rewrite audit_run, (findings_blank_vehicle _ _ rec).
Qed.

(** C8: the audit never changes a record: the table after a run is the
    table before it, whatever was found and whether or not an alert was
    sent (the process environment is unchanged as well). *)
Theorem audit_leaves_records_unchanged record_id w :
  let w' :=
    snd (audit_vehicle_mileage_and_alert int_max_str_digits transport
           record_id w) in
  table w' = table w /\
  environ w' = environ w /\
  forall r, In r (table w) <-> In r (table w').
Proof.
  destruct (audit_table record_id w) as [Ht He]. simpl.
  repeat split; try assumption; now rewrite Ht.
Qed.

(** C7: two runs of the audit on the same record over equal tables collect
    the same issues and hand the same alert (subject and body), or none,
    to the notifier, whatever else differs between the two worlds and
    whatever the mail transport of each run does. *)
Theorem audit_deterministic
    (transport' : Message -> world -> option exn) record_id w1 w2 :
  table w1 = table w2 ->
  audit_issues int_max_str_digits (table w1) record_id =
  audit_issues int_max_str_digits (table w2) record_id /\
  exists alert,
    alert = alert_of (findings_of (table w1) record_id) /\
    audit record_id w1 = dispatch transport alert w1 /\
    audit_vehicle_mileage_and_alert int_max_str_digits transport'
      record_id w2 = dispatch transport' alert w2.
Proof.
  intros Ht. split; [now rewrite Ht|].
  eexists; split; [reflexivity|]. split; [apply audit_run|].
  rewrite Ht. clear Ht.
  unfold audit_vehicle_mileage_and_alert, audit_findings, bind, Query.run.
  destruct (Query.get record_id (table w2)) as [rec|]; [|reflexivity].
  destruct (status_ne rec "submitted"); [reflexivity|].
  destruct (Py.is_empty _); [reflexivity|].
  unfold alert_of; simpl.
  destruct ((_ ++ _) ++ _)%list; reflexivity.
Qed.

Lemma is_empty_true s : Py.is_empty s = true <-> s = "".
Proof. destruct s; simpl; split; congruence. Qed.

Lemma filter_mail_logged_print w line :
  List.filter is_mail (output (logged w [Print line])) = List.filter is_mail (output w).
Proof. simpl. rewrite List.filter_app. simpl. apply app_nil_r. Qed.

(** C10: when the alert address resolves to the empty string (ALERT_EMAIL
    set to an empty or blank value), the alert sender returns after one
    log line and hands nothing to the mail transport; an audit that
    collected issues then sends no mail and raises nothing. *)
Theorem no_recipient_no_delivery subj text record_id w :
  alert_email_in w = "" ->
  send subj text w =
    (Returned tt,
     logged w [Print "[MileageAudit] ALERT_EMAIL not set; skipping email."]) /\
  fst (audit record_id w) = Returned tt /\
  List.filter is_mail (output (snd (audit record_id w))) =
    List.filter is_mail (output w).
Proof.
  intros He.
  assert (Hs : forall a b, send a b w =
    (Returned tt,
     logged w [Print "[MileageAudit] ALERT_EMAIL not set; skipping email."])).
  { intros a b. rewrite send_run, He. reflexivity. }
  split; [apply Hs|].
  rewrite audit_run.
  destruct (alert_of _) as [[a b]|]; simpl.
  - rewrite Hs. split; [reflexivity|]. apply filter_mail_logged_print.
  - split; reflexivity.
Qed.

End AlertFacts.

Section QueryFacts.

Lemma eq_col_true col v : Query.eq_col col v = true <-> col = Some v.
Proof.
  destruct col as [c|]; simpl; [|split; discriminate].
  destruct (String.eqb_spec c v); split; congruence.
Qed.

Lemma in_filter_by veh st rows r :
  In r (Query.filter_by veh st rows) <->
  In r rows /\ V.vehicle r = Some veh /\ V.status r = Some st.
Proof.
  unfold Query.filter_by. rewrite filter_In, andb_true_iff, !eq_col_true.
  tauto.
Qed.

Lemma in_filter_id_ne i rows r :
  In r (Query.filter_id_ne i rows) <-> In r rows /\ V.id r <> i.
Proof.
  unfold Query.filter_id_ne. rewrite filter_In, negb_true_iff, Z.eqb_neq.
  tauto.
Qed.

Lemma in_insert_desc r rows x :
  In x (Query.insert_desc r rows) <-> x = r \/ In x rows.
Proof.
  induction rows as [|y rest IH]; simpl; [intuition congruence|].
  destruct (V.id y <? V.id r)%Z; simpl; [intuition congruence|].
  rewrite IH. intuition congruence.
Qed.

Lemma in_order_by_id_desc rows x :
  In x (Query.order_by_id_desc rows) <-> In x rows.
Proof.
  induction rows as [|y rest IH]; simpl; [tauto|].
  rewrite in_insert_desc, IH. intuition congruence.
Qed.

Lemma insert_desc_head_is_max r rows :
  head_is_max rows -> head_is_max (Query.insert_desc r rows).
Proof.
  unfold head_is_max. destruct rows as [|x rest]; simpl.
  - intros _ h [= <-] q [<-|[]]. lia.
  - intros Hmax. specialize (Hmax x eq_refl).
    destruct (Z.ltb_spec (V.id x) (V.id r)); simpl; intros h [= <-] q Hq.
    + destruct Hq as [<-|Hq]; [lia|]. specialize (Hmax q Hq). lia.
    + destruct Hq as [<-|Hq]; [lia|].
      apply in_insert_desc in Hq as [->|Hq]; [lia|].
      apply Hmax. now right.
Qed.

Lemma order_by_id_desc_head_is_max rows :
  head_is_max (Query.order_by_id_desc rows).
Proof.
  induction rows as [|x rest IH]; simpl.
  - intros h [=].
  - now apply insert_desc_head_is_max.
Qed.

(** [.order_by(id.desc()).first()] is a row of largest id, and is there
    whenever a row is. *)
Lemma first_desc_some rows p :
  Query.first (Query.order_by_id_desc rows) = Some p ->
  In p rows /\ forall q, In q rows -> V.id q <= V.id p.
Proof.
  intros H. split.
  - apply in_order_by_id_desc. unfold Query.first in H.
    destruct (Query.order_by_id_desc rows); [discriminate|].
    injection H as ->. now left.
  - intros q Hq. apply (order_by_id_desc_head_is_max rows p H).
    now apply in_order_by_id_desc.
Qed.

Lemma first_desc_none rows :
  Query.first (Query.order_by_id_desc rows) = None -> rows = [].
Proof.
  destruct rows as [|x rest]; [reflexivity|]. intros H.
  assert (Hx : In x (Query.order_by_id_desc (x :: rest)))
    by (apply in_order_by_id_desc; now left).
  unfold Query.first in H.
  destruct (Query.order_by_id_desc (x :: rest)); [destruct Hx | discriminate].
Qed.

Lemma primary_key_inj rows p q :
  primary_key rows -> In p rows -> In q rows -> V.id p = V.id q -> p = q.
Proof.
  unfold primary_key. induction rows as [|x rest IH]; simpl; [tauto|].
  intros Hnd. apply List.NoDup_cons_iff in Hnd as [Hx Hnd].
  intros [<-|Hp] [<-|Hq] Heq; try reflexivity.
  - exfalso; apply Hx. rewrite Heq. now apply in_map.
  - exfalso; apply Hx. rewrite <- Heq. now apply in_map.
  - now apply IH.
Qed.

(** [.get(i)] finds a row of the table whose id is [i]. *)
Lemma get_some i rows r :
  Query.get i rows = Some r -> In r rows /\ V.id r = i.
Proof.
  unfold Query.get. intros H. apply find_some in H as [Hin Heq].
  split; [assumption | now apply Z.eqb_eq].
Qed.

End QueryFacts.

Section DetectorFacts.

Variable int_max_str_digits : nat.

Local Abbreviation parse := (parse_mileage_or_none int_max_str_digits).
Local Abbreviation findings_of := (audit_findings int_max_str_digits).

Lemma status_ne_false rec s :
  status_ne rec s = false -> V.status rec = Some s.
Proof.
  unfold status_ne. destruct (V.status rec) as [st|]; [|discriminate].
  destruct (String.eqb_spec st s); [congruence | discriminate].
Qed.

(** What the findings of a run that reached line 159 are made of. *)
Lemma findings_inv rows record_id f :
  findings_of rows record_id = Some f ->
  Query.get record_id rows = Some (target f) /\
  V.status (target f) = Some "submitted" /\
  vehicle_key f = Py.strip (default "" (V.vehicle (target f))) /\
  Py.is_empty (vehicle_key f) = false /\
  start0 f = parse (V.start_mileage (target f)) /\
  end0 f = parse (V.end_mileage (target f)) /\
  siblings f = others_query (vehicle_key f) (target f) rows /\
  overlaps f =
    find_overlaps (start0 f) (end0 f)
      (parse_rows int_max_str_digits (siblings f)) /\
  previous f = prev_query (vehicle_key f) (target f) rows /\
  issues f =
    ((validity_issues (start0 f) (end0 f) ++ overlap_issues (overlaps f))
       ++ gap_issues int_max_str_digits (start0 f) (previous f))%list.
Proof.
  unfold audit_findings.
  destruct (Query.get record_id rows) as [rec|]; [|discriminate].
  destruct (status_ne rec "submitted") eqn:Hst; [discriminate|].
  destruct (Py.is_empty _) eqn:Hv; [discriminate|].
  intros [= <-]; simpl. apply status_ne_false in Hst.
  repeat split; assumption.
Qed.

Lemma in_others_query veh rec rows r :
  In r (others_query veh rec rows) <->
  In r rows /\ sibling_of (Some veh) rec r.
Proof.
  unfold others_query, Query.all, sibling_of.
  rewrite in_filter_id_ne, in_filter_by. tauto.
Qed.

Lemma in_parse_rows others r s e :
  In (r, s, e) (parse_rows int_max_str_digits others) <->
  In r others /\
  parse (V.start_mileage r) = Some s /\ parse (V.end_mileage r) = Some e.
Proof.
  induction others as [|x rest IH]; simpl; [tauto|].
  destruct (parse (V.start_mileage x)) as [sx|] eqn:Hs;
    [destruct (parse (V.end_mileage x)) as [ex|] eqn:He|]; simpl;
    rewrite IH; split.
  - intros [[= -> -> ->]|H]; [auto | tauto].
  - intros [[->|H] [H1 H2]]; [left; congruence | right; tauto].
  - tauto.
  - intros [[->|H] [H1 H2]]; [congruence | tauto].
  - tauto.
  - intros [[->|H] [H1 H2]]; [congruence | tauto].
Qed.

Lemma overlapping_iff s0 e0 r s e :
  overlapping s0 e0 (r, s, e) = true <-> s0 < e /\ e0 > s.
Proof. unfold overlapping. rewrite andb_true_iff, Z.ltb_lt, Z.gtb_gt. tauto. Qed.

Lemma in_find_overlaps s0 e0 parsed r s e :
  In (r, s, e) (find_overlaps s0 e0 parsed) <->
  In (r, s, e) parsed /\
  exists a b, s0 = Some a /\ e0 = Some b /\ a < e /\ b > s.
Proof.
  unfold find_overlaps.
  destruct s0 as [a|]; [destruct e0 as [b|]|]; simpl.
  - rewrite filter_In, overlapping_iff. split.
    + intros [H1 H2]. split; [assumption|]. now exists a, b.
    + intros [H1 (a' & b' & [= <-] & [= <-] & H)]. tauto.
  - split; [tauto|]. now intros [_ (a' & b' & _ & [=] & _)].
  - split; [tauto|]. now intros [_ (a' & b' & [=] & _)].
Qed.

(** C1: in a run that reaches the detectors, with the target's two
    mileages parsed, a candidate (a row the sibling query loaded) whose
    two mileages parse is reported as overlapping exactly when
    target_start < candidate_end and target_end > candidate_start; only
    candidates with two parsed mileages are ever reported; and nothing is
    reported when a mileage of the target is null.  The candidates are the
    other submitted rows whose vehicle column is the audited vehicle. *)
Theorem overlap_report rows record_id f :
  findings_of rows record_id = Some f ->
  (forall s0 e0 r s e,
     start0 f = Some s0 -> end0 f = Some e0 ->
     In r (siblings f) ->
     parse (V.start_mileage r) = Some s ->
     parse (V.end_mileage r) = Some e ->
     (In (r, s, e) (overlaps f) <-> s0 < e /\ e0 > s)) /\
  (forall r s e,
     In (r, s, e) (overlaps f) ->
     In r (siblings f) /\
     parse (V.start_mileage r) = Some s /\
     parse (V.end_mileage r) = Some e) /\
  (forall r,
     parse (V.start_mileage r) = None \/ parse (V.end_mileage r) = None ->
     forall s e, ~ In (r, s, e) (overlaps f)) /\
  (start0 f = None \/ end0 f = None -> overlaps f = []) /\
  (forall r, In r (siblings f) <->
     In r rows /\ sibling_of (Some (vehicle_key f)) (target f) r).
Proof.
  intros Hf.
  destruct (findings_inv _ _ _ Hf)
    as (_ & _ & _ & _ & _ & _ & Hsib & Hov & _ & _).
  assert (Hin : forall r s e, In (r, s, e) (overlaps f) <->
            (In r (siblings f) /\ parse (V.start_mileage r) = Some s /\
             parse (V.end_mileage r) = Some e) /\
            exists a b, start0 f = Some a /\ end0 f = Some b /\
                        a < e /\ b > s).
  { intros r s e. now rewrite Hov, in_find_overlaps, in_parse_rows. }
  split; [|split; [|split; [|split]]].
  - intros s0 e0 r s e Hs0 He0 Hr Hs He. rewrite Hin. split.
    + intros (_ & a & b & Ha & Hb & H). rewrite Hs0 in Ha; rewrite He0 in Hb.
      injection Ha as <-; injection Hb as <-. exact H.
    + intros H. split; [tauto|]. now exists s0, e0.
  - intros r s e H. apply Hin in H. tauto.
  - intros r [Hn|Hn] s e H; apply Hin in H as ((_ & H1 & H2) & _); congruence.
  - intros Hn. rewrite Hov. unfold find_overlaps.
    destruct Hn as [-> | ->]; [reflexivity|].
    now destruct (start0 f).
  - intros r. rewrite Hsib. apply in_others_query.
Qed.

Lemma in_prev_candidates veh rec rows r :
  In r (Query.filter_id_ne (V.id rec) (Query.filter_by veh "submitted" rows))
  <-> In r rows /\ sibling_of (Some veh) rec r.
Proof. exact (in_others_query veh rec rows r). Qed.

(** The row [prev_query] returns is the latest sibling. *)
Lemma prev_query_latest veh rec rows p :
  prev_query veh rec rows = Some p -> latest_sibling (Some veh) rows rec p.
Proof.
  unfold prev_query. intros H. apply first_desc_some in H as [Hin Hmax].
  apply in_prev_candidates in Hin as [Hin Hsib].
  repeat split; try tauto; try apply Hsib.
  intros q Hq Hqs. apply Hmax. apply in_prev_candidates. tauto.
Qed.

Lemma latest_prev_query veh rec rows p :
  primary_key rows ->
  latest_sibling (Some veh) rows rec p -> prev_query veh rec rows = Some p.
Proof.
  intros Hpk (Hin & Hsib & Hmax).
  destruct (prev_query veh rec rows) as [p'|] eqn:Hprev.
  - apply prev_query_latest in Hprev as (Hin' & Hsib' & Hmax').
    f_equal. apply (primary_key_inj rows); try assumption.
    specialize (Hmax p' Hin' Hsib'). specialize (Hmax' p Hin Hsib). lia.
  - unfold prev_query in Hprev. apply first_desc_none in Hprev.
    assert (H : In p []) by (rewrite <- Hprev; apply in_prev_candidates; tauto).
    destruct H.
Qed.

Lemma gap_message_not_validity s0 e0 :
  ~ In gap_message (validity_issues s0 e0).
Proof.
  unfold validity_issues, gap_message.
  destruct s0 as [s|]; [destruct e0 as [e|]; [destruct (e <? s)%Z|]|];
    simpl; intuition discriminate.
Qed.

Lemma gap_message_not_overlap ov : ~ In gap_message (overlap_issues ov).
Proof.
  unfold overlap_issues, gap_message.
  destruct ov; simpl; intuition discriminate.
Qed.

Lemma in_gap_issues s0 prev :
  In gap_message (gap_issues int_max_str_digits s0 prev) <->
  exists p prev_e s,
    prev = Some p /\ parse (V.end_mileage p) = Some prev_e /\
    s0 = Some s /\ s - prev_e > 5.
Proof.
  unfold gap_issues. split.
  - destruct prev as [p|]; [|intros []].
    destruct s0 as [s|]; [|intros []].
    destruct (parse (V.end_mileage p)) as [prev_e|] eqn:Hp; [|intros []].
    destruct (Z.gtb_spec (s - prev_e) 5); [|intros []].
    intros _. exists p, prev_e, s.
    repeat split; first [reflexivity | exact Hp | lia].
  - intros (p & prev_e & s & -> & Hp & -> & Hgap). rewrite Hp.
    destruct (Z.gtb_spec (s - prev_e) 5); [now left | lia].
Qed.

(** The gap check as lines 144-157 perform it: for a record the audit
    examines, the previous record is the submitted row with the largest id
    among the rows of another id whose vehicle column equals the target's
    vehicle with its surrounding whitespace stripped; the gap is
    target_start minus that row's parsed end mileage; and the gap issue is
    reported exactly when that row exists, its end mileage parses,
    target_start is not null and the gap is strictly above 5. *)
Theorem gap_check rows record_id f :
  primary_key rows ->
  findings_of rows record_id = Some f ->
  vehicle_key f = Py.strip (default "" (V.vehicle (target f))) /\
  (forall p, previous f = Some p <->
             latest_sibling (Some (vehicle_key f)) rows (target f) p) /\
  (In gap_message (issues f) <->
   exists p prev_e s0,
     previous f = Some p /\
     parse (V.end_mileage p) = Some prev_e /\
     start0 f = Some s0 /\
     s0 - prev_e > 5).
Proof.
  intros Hpk Hf.
  destruct (findings_inv _ _ _ Hf)
    as (_ & _ & Hkey & _ & _ & _ & _ & _ & Hprev & Hiss).
  split; [assumption|]. split.
  - intros p. rewrite Hprev. split.
    + apply prev_query_latest.
    + now apply latest_prev_query.
  - rewrite Hiss, !in_app_iff, in_gap_issues.
    pose proof (gap_message_not_validity (start0 f) (end0 f)).
    pose proof (gap_message_not_overlap (overlaps f)).
    tauto.
Qed.

(** Line 106 strips the vehicle of the target only; the form handler stores
    the field as it was typed.  So a target whose vehicle was stored with
    surrounding whitespace is never matched with a row that stores the very
    same text, neither as the previous record nor as an overlap candidate. *)
Lemma padded_target_unmatched rows record_id f v :
  findings_of rows record_id = Some f ->
  V.vehicle (target f) = Some v ->
  Py.strip v <> v ->
  (forall p, previous f = Some p -> V.vehicle p <> Some v) /\
  (forall r, In r (siblings f) -> V.vehicle r <> Some v).
Proof.
  intros Hf Hv Hpad.
  destruct (findings_inv _ _ _ Hf)
    as (_ & _ & Hkey & _ & _ & _ & Hsib & _ & Hprev & _).
  rewrite Hv in Hkey. simpl in Hkey. split.
  - intros p Hp. rewrite Hprev in Hp.
    apply prev_query_latest in Hp as (_ & (Hveh & _) & _).
    rewrite Hveh, Hkey. congruence.
  - intros r Hr. rewrite Hsib in Hr.
    apply in_others_query in Hr as (_ & Hveh & _).
    rewrite Hveh, Hkey. congruence.
Qed.

(** The overlap test on a range of width zero: it is reported against any
    range that holds its mileage strictly inside. *)
Lemma overlapping_zero_width_target m r s e :
  overlapping m m (r, s, e) = true <-> s < m /\ m < e.
Proof. rewrite overlapping_iff. lia. Qed.

Lemma overlapping_zero_width_candidate s0 e0 r m :
  overlapping s0 e0 (r, m, m) = true <-> s0 < m /\ m < e0.
Proof. rewrite overlapping_iff. lia. Qed.

End DetectorFacts.

(** C3 on the code: both trips carry the vehicle "RAM " as the form handler
    stored it, so they are trips of the same vehicle; trip 1 is the only
    other submitted record, it ends at 100, and the audited trip 2 starts
    at 200, a gap of 100.  The audit strips the vehicle of the target only,
    looks up the rows whose vehicle is "RAM", finds no previous record,
    reports no gap and sends no alert.  The same two trips stored as "RAM"
    raise the gap issue against trip 1. *)
Theorem padded_vehicle_gap_missed :
  (exists f p,
     audit_findings 4300 padded_rows 2 = Some f /\
     V.vehicle (target f) = Some "RAM " /\
     V.vehicle p = Some "RAM " /\
     latest_sibling (V.vehicle (target f)) padded_rows (target f) p /\
     (exists prev_e s0,
        parse_mileage_or_none 4300 (V.end_mileage p) = Some prev_e /\
        start0 f = Some s0 /\ s0 - prev_e > 5) /\
     vehicle_key f = "RAM" /\
     previous f = None /\
     ~ In gap_message (issues f)) /\
  audit_vehicle_mileage_and_alert 4300 delivering 2 (quiet padded_rows) =
    (Returned tt, quiet padded_rows) /\
  (exists g,
     audit_findings 4300 unpadded_rows 2 = Some g /\
     previous g = Some (trip 1 "RAM" "0" "100") /\
     In gap_message (issues g)).
Proof.
  split; [|split].
  - eexists. exists (trip 1 "RAM " "0" "100").
    split; [reflexivity|]. split; [reflexivity|]. split; [reflexivity|].
    split; [|split; [|split; [|split]]].
    + split; [now left|]. split.
      * repeat split; simpl; first [reflexivity | discriminate].
      * intros q [<-|[<-|[]]] (_ & _ & Hne); simpl in *; [lia | congruence].
    + exists 100, 200. repeat split; reflexivity.
    + reflexivity.
    + reflexivity.
    + intros [].
  - reflexivity.
  - eexists. split; [reflexivity|]. split; [reflexivity|].
    vm_compute. now left.
Qed.

(** C2 on the code: a record that starts and ends at mileage 100 is
    reported as overlapping the trip from 50 to 150 of the same vehicle,
    whichever of the two is audited, and the overlap issue is raised. *)
Theorem zero_width_range_reported :
  (exists f,
     audit_findings 4300 zero_width_rows 10 = Some f /\
     start0 f = Some 100 /\ end0 f = Some 100 /\
     overlaps f = [(trip 5 "2022 RAM" "50" "150", 50, 150)] /\
     issues f =
       ["Overlapping mileage range detected with 1 other record(s)."]) /\
  (exists f,
     audit_findings 4300 zero_width_rows 5 = Some f /\
     overlaps f = [(trip 10 "2022 RAM" "100" "100", 100, 100)] /\
     issues f =
       ["Overlapping mileage range detected with 1 other record(s)."]).
Proof.
  split; eexists; (split; [reflexivity|]); repeat split; reflexivity.
Qed.

Section SubmissionFacts.

Variable transport : Message -> world -> option exn.
Variable any_audit : Z -> M unit.

Local Abbreviation send := (send_mileage_error_alert transport).

Lemma action_eq_save action :
  action_ne action "save" = false -> action = Some "save".
Proof.
  destruct action as [a|]; simpl; [|discriminate].
  destruct (String.eqb_spec a "save"); [congruence | discriminate].
Qed.

(** C6: a failure of the mail transport inside the alert sender is caught
    and logged and the sender returns normally; and whatever the audit
    called by the submission handler does, a raised failure included, the
    handler returns its redirect (to the confirmation page for a
    submission), logging the failure it caught. *)
Theorem failures_do_not_propagate subj text action record_id w :
  (exists es, send subj text w = (Returned tt, logged w es)) /\
  (forall e,
     Py.is_empty (alert_email_in w) = false ->
     transport (alert_message w subj text) w = Some e ->
     send subj text w =
     (Returned tt,
      logged w [MailSend (alert_message w subj text);
                Print ("[MileageAudit] Email send failed: " ++ repr e)])) /\
  (exists w',
     vehicle_form_committed any_audit action record_id w =
     (Returned (Redirect (if action_ne action "save"
                          then "user.form_submitted"
                          else "user.user_my_forms")), w')) /\
  (forall e w1,
     action_ne action "save" = true ->
     any_audit record_id w = (Raised e, w1) ->
     vehicle_form_committed any_audit action record_id w =
     (Returned (Redirect "user.form_submitted"),
      logged w1 [Print ("[MileageAudit] Audit failed: " ++ repr e)])).
Proof.
  split; [|split; [|split]].
  - destruct (send_returns transport subj text w) as (es & _ & H).
    now exists es.
  - intros e He Ht. now rewrite send_run, He, Ht.
  - unfold vehicle_form_committed, bind, try_except.
    destruct (action_ne action "save"); simpl.
    + destruct (any_audit record_id w) as [[[]|e] w1]; eexists; reflexivity.
    + eexists; reflexivity.
  - intros e w1 Ha Hr.
    unfold vehicle_form_committed, bind, try_except. rewrite Ha, Hr.
    reflexivity.
Qed.

End SubmissionFacts.

Section TextFacts.

Variable sp : ascii -> bool.

Lemma lstrip_all_space s :
  Py.all_chars sp s = true -> Py.lstrip_with sp s = "".
Proof.
  induction s as [|c r IH]; simpl; [reflexivity|].
  destruct (sp c); simpl; [assumption | discriminate].
Qed.

Lemma rstrip_empty_iff s :
  Py.rstrip_with sp s = "" <-> Py.all_chars sp s = true.
Proof.
  induction s as [|c r IH]; simpl; [tauto|].
  destruct (sp c); simpl.
  - destruct (Py.rstrip_with sp r) eqn:Hr; simpl.
    + intuition.
    + rewrite <- IH. split; discriminate.
  - split; discriminate.
Qed.

Lemma rstrip_cons c r :
  Py.rstrip_with sp (String c r) =
  if sp c && Py.all_chars sp r then "" else String c (Py.rstrip_with sp r).
Proof.
  simpl. destruct (sp c); simpl; [|reflexivity].
  destruct (Py.all_chars sp r) eqn:Ha.
  - apply rstrip_empty_iff in Ha. now rewrite Ha.
  - destruct (Py.rstrip_with sp r) eqn:Hr; [|reflexivity].
    apply rstrip_empty_iff in Hr. congruence.
Qed.

Lemma all_chars_rstrip s :
  Py.all_chars sp (Py.rstrip_with sp s) = Py.all_chars sp s.
Proof.
  induction s as [|c r IH]; [reflexivity|].
  rewrite rstrip_cons. simpl.
  destruct (sp c) eqn:Hc; simpl; [|now rewrite Hc].
  destruct (Py.all_chars sp r) eqn:Ha; simpl; [reflexivity|].
  now rewrite Hc, IH.
Qed.

Lemma lstrip_idem s :
  Py.lstrip_with sp (Py.lstrip_with sp s) = Py.lstrip_with sp s.
Proof.
  induction s as [|c r IH]; simpl; [reflexivity|].
  destruct (sp c) eqn:Hc; [assumption|]. simpl. now rewrite Hc.
Qed.

Lemma lstrip_rstrip s :
  Py.lstrip_with sp (Py.rstrip_with sp s) =
  Py.rstrip_with sp (Py.lstrip_with sp s).
Proof.
  induction s as [|c r IH]; [reflexivity|].
  rewrite rstrip_cons. cbn [Py.lstrip_with].
  destruct (sp c) eqn:Hc; cbn [andb].
  - destruct (Py.all_chars sp r) eqn:Ha.
    + rewrite (lstrip_all_space r Ha). reflexivity.
    + cbn [Py.lstrip_with]. rewrite Hc. exact IH.
  - cbn [Py.lstrip_with]. rewrite Hc. rewrite rstrip_cons, Hc. reflexivity.
Qed.

Lemma all_chars_is_empty_rstrip s :
  Py.all_chars sp s = Py.is_empty (Py.rstrip_with sp s).
Proof.
  destruct (Py.all_chars sp s) eqn:Ha.
  - apply rstrip_empty_iff in Ha. now rewrite Ha.
  - destruct (Py.rstrip_with sp s) eqn:Hr; [|reflexivity].
    apply rstrip_empty_iff in Hr. congruence.
Qed.

Lemma all_chars_remove (q : ascii -> bool) c s :
  Py.all_chars q s = true -> Py.all_chars q (Py.remove_char c s) = true.
Proof.
  induction s as [|d r IH]; simpl; [reflexivity|].
  intros H. apply andb_true_iff in H as [H1 H2].
  destruct (Ascii.eqb d c); simpl; [auto|]. rewrite H1. auto.
Qed.

Lemma remove_char_gone c s :
  Py.all_chars (fun d => negb (Ascii.eqb d c)) (Py.remove_char c s) = true.
Proof.
  induction s as [|d r IH]; simpl; [reflexivity|].
  destruct (Ascii.eqb d c) eqn:Hd; simpl; [assumption|].
  now rewrite Hd.
Qed.

Hypothesis comma_not_space : sp "," = false.

Lemma lstrip_remove_lstrip s :
  Py.lstrip_with sp (Py.remove_char "," (Py.lstrip_with sp s)) =
  Py.lstrip_with sp (Py.remove_char "," s).
Proof.
  induction s as [|c r IH]; simpl; [reflexivity|].
  destruct (sp c) eqn:Hc; [|reflexivity].
  destruct (Ascii.eqb_spec c ","); [congruence|].
  simpl. now rewrite Hc.
Qed.

Lemma rstrip_remove_rstrip s :
  Py.rstrip_with sp (Py.remove_char "," (Py.rstrip_with sp s)) =
  Py.rstrip_with sp (Py.remove_char "," s).
Proof.
  induction s as [|c r IH]; [reflexivity|].
  rewrite rstrip_cons. cbn [Py.remove_char].
  destruct (Ascii.eqb_spec c ",") as [->|Hne].
  - rewrite comma_not_space. cbn [andb Py.remove_char].
    rewrite Ascii.eqb_refl. exact IH.
  - destruct (sp c && Py.all_chars sp r) eqn:Hall.
    + apply andb_true_iff in Hall as [Hc Ha].
      rewrite rstrip_cons, Hc, (all_chars_remove sp "," r Ha). reflexivity.
    + cbn [Py.remove_char]. destruct (Ascii.eqb_spec c ","); [congruence|].
      rewrite !rstrip_cons, !all_chars_is_empty_rstrip, IH. reflexivity.
Qed.

Lemma strip_remove_strip s :
  Py.rstrip_with sp (Py.lstrip_with sp
    (Py.remove_char "," (Py.rstrip_with sp (Py.lstrip_with sp s)))) =
  Py.rstrip_with sp (Py.lstrip_with sp (Py.remove_char "," s)).
Proof.
  rewrite <- (lstrip_rstrip (Py.remove_char "," _)).
  rewrite rstrip_remove_rstrip, lstrip_rstrip.
  now rewrite lstrip_remove_lstrip.
Qed.

End TextFacts.

Section IntFacts.

Variable limit : nat.

Ltac by_cases_on c :=
  destruct c as [[] [] [] [] [] [] [] []]; vm_compute; congruence.

Lemma int_space_not_digit c :
  Py.is_int_space c = true -> Py.digit_value c = None.
Proof. by_cases_on c. Qed.

Lemma int_space_not_underscore c :
  Py.is_int_space c = true -> Ascii.eqb c "_" = false.
Proof. by_cases_on c. Qed.

Lemma int_space_not_sign c :
  Py.is_int_space c = true ->
  Ascii.eqb c "-" = false /\ Ascii.eqb c "+" = false.
Proof. destruct c as [[] [] [] [] [] [] [] []]; vm_compute; intuition congruence. Qed.

Lemma space_without_separator c :
  Py.is_separator c = false -> Py.is_space c = Py.is_int_space c.
Proof. by_cases_on c. Qed.

Lemma int_lstrip s :
  Py.int limit (Py.lstrip_with Py.is_int_space s) = Py.int limit s.
Proof. unfold Py.int. now rewrite lstrip_idem. Qed.

Lemma scan_digits_rstrip s : forall prev_us acc n,
  Py.scan_digits (Py.rstrip_with Py.is_int_space s) prev_us acc n =
  match Py.scan_digits s prev_us acc n with
  | Some (v, k, rest) => Some (v, k, Py.rstrip_with Py.is_int_space rest)
  | None => None
  end.
Proof.
  induction s as [|c r IH]; intros prev_us acc n.
  - simpl. now destruct prev_us.
  - rewrite rstrip_cons.
    destruct (Py.is_int_space c && Py.all_chars Py.is_int_space r) eqn:Hall.
    + pose proof Hall as Hall'.
      apply andb_true_iff in Hall' as [Hc _]. cbn [Py.scan_digits].
      rewrite (int_space_not_digit c Hc), (int_space_not_underscore c Hc).
      destruct prev_us; [reflexivity|].
      now rewrite rstrip_cons, Hall.
    + cbn [Py.scan_digits]. destruct (Py.digit_value c); [apply IH|].
      destruct prev_us; [reflexivity|].
      destruct (Ascii.eqb c "_"); [apply IH|].
      now rewrite rstrip_cons, Hall.
Qed.

Lemma split_sign_rstrip s :
  Py.split_sign (Py.rstrip_with Py.is_int_space s) =
  (fst (Py.split_sign s), Py.rstrip_with Py.is_int_space (snd (Py.split_sign s))).
Proof.
  destruct s as [|c r]; [reflexivity|].
  rewrite rstrip_cons.
  destruct (Py.is_int_space c && Py.all_chars Py.is_int_space r) eqn:Hall.
  - pose proof Hall as Hall'.
    apply andb_true_iff in Hall' as [Hc _].
    destruct (int_space_not_sign c Hc) as [H1 H2].
    cbn [Py.split_sign]. rewrite H1, H2. cbn [fst snd].
    now rewrite rstrip_cons, Hall.
  - cbn [Py.split_sign]. destruct (Ascii.eqb c "-"); [reflexivity|].
    destruct (Ascii.eqb c "+"); [reflexivity|].
    cbn [fst snd]. now rewrite rstrip_cons, Hall.
Qed.

Lemma starts_with_digit_rstrip s :
  Py.starts_with_digit (Py.rstrip_with Py.is_int_space s) =
  Py.starts_with_digit s.
Proof.
  destruct s as [|c r]; [reflexivity|].
  rewrite rstrip_cons.
  destruct (Py.is_int_space c && Py.all_chars Py.is_int_space r) eqn:Hall;
    [|reflexivity].
  apply andb_true_iff in Hall as [Hc _]. simpl.
  now rewrite (int_space_not_digit c Hc).
Qed.

(** [int] does not see the blanks around its argument. *)
Lemma int_rstrip s :
  Py.int limit (Py.rstrip_with Py.is_int_space s) = Py.int limit s.
Proof.
  unfold Py.int. rewrite lstrip_rstrip, split_sign_rstrip.
  destruct (Py.split_sign (Py.lstrip_with Py.is_int_space s)) as [neg body].
  simpl. rewrite starts_with_digit_rstrip, scan_digits_rstrip.
  destruct (Py.starts_with_digit body); [|reflexivity].
  destruct (Py.scan_digits body false 0 0) as [[[v k] rest]|]; [|reflexivity].
  now rewrite all_chars_rstrip.
Qed.

Lemma int_empty : Py.int limit "" = None.
Proof. reflexivity. Qed.

End IntFacts.

Section SeparatorFacts.

Local Abbreviation plain := (fun c => negb (Py.is_separator c)).

Lemma plain_space c : plain c = true -> Py.is_space c = Py.is_int_space c.
Proof.
  intros H. apply space_without_separator. now apply negb_true_iff.
Qed.

Lemma all_chars_lstrip (q sp : ascii -> bool) s :
  Py.all_chars q s = true -> Py.all_chars q (Py.lstrip_with sp s) = true.
Proof.
  induction s as [|c r IH]; simpl; [reflexivity|].
  intros H. destruct (sp c); [|exact H].
  apply andb_true_iff in H as [_ H]. auto.
Qed.

Lemma lstrip_plain s :
  Py.all_chars plain s = true ->
  Py.lstrip_with Py.is_space s = Py.lstrip_with Py.is_int_space s.
Proof.
  induction s as [|c r IH]; simpl; [reflexivity|].
  intros H. apply andb_true_iff in H as [Hc Hr].
  rewrite (plain_space c Hc), (IH Hr). reflexivity.
Qed.

Lemma rstrip_plain s :
  Py.all_chars plain s = true ->
  Py.rstrip_with Py.is_space s = Py.rstrip_with Py.is_int_space s.
Proof.
  induction s as [|c r IH]; simpl; [reflexivity|].
  intros H. apply andb_true_iff in H as [Hc Hr].
  rewrite (plain_space c Hc), (IH Hr). reflexivity.
Qed.

(** Without separators in it, a string is stripped by [str.strip] as [int]
    would strip it. *)
Lemma strip_plain s :
  Py.all_chars plain s = true ->
  Py.strip s =
  Py.rstrip_with Py.is_int_space (Py.lstrip_with Py.is_int_space s).
Proof.
  intros H. unfold Py.strip.
  rewrite rstrip_plain by now apply all_chars_lstrip.
  now rewrite lstrip_plain.
Qed.

End SeparatorFacts.

Section DecimalFacts.

Ltac digit_step :=
  cbn [NilEmpty.string_of_uint Py.scan_digits Decimal.nb_digits
       Pos.of_uint Pos.of_uint_acc];
  match goal with
  | |- context [Py.digit_value ?c] =>
      let v := eval vm_compute in (Py.digit_value c) in
      change (Py.digit_value c) with v; cbv iota beta
  end.

Lemma scan_uint_acc d : forall acc n,
  Py.scan_digits (NilEmpty.string_of_uint d) false (Z.pos acc) n =
  Some (Z.pos (Pos.of_uint_acc d acc), (n + Decimal.nb_digits d)%nat, "").
Proof.
  induction d; intros acc n;
    try (digit_step;
         match goal with
         | |- Py.scan_digits _ false ?a _ =
              Some (Z.pos (Pos.of_uint_acc _ ?p), _, _) =>
             replace a with (Z.pos p) by lia
         end;
         rewrite IHd, Nat.add_succ_r; reflexivity).
  simpl. now rewrite Nat.add_0_r.
Qed.

Lemma scan_uint d : forall n,
  Py.scan_digits (NilEmpty.string_of_uint d) false 0 n =
  Some (Z.of_N (Pos.of_uint d), (n + Decimal.nb_digits d)%nat, "").
Proof.
  induction d; intros n;
    try (digit_step;
         match goal with
         | |- Py.scan_digits _ false ?a _ = _ =>
             let v := eval vm_compute in a in change a with v
         end;
         first [ rewrite IHd | rewrite scan_uint_acc ];
         rewrite Nat.add_succ_r; reflexivity).
  simpl. now rewrite Nat.add_0_r.
Qed.

Lemma length_uint d :
  String.length (NilEmpty.string_of_uint d) = Decimal.nb_digits d.
Proof. induction d; simpl; congruence. Qed.

Lemma numeric_uint d :
  Py.all_chars Py.numeric (NilEmpty.string_of_uint d) = true.
Proof. induction d; simpl; auto. Qed.

Lemma numeric_facts c :
  Py.numeric c = true ->
  Py.is_space c = false /\ Py.is_int_space c = false /\
  Ascii.eqb c "," = false.
Proof.
  destruct c as [[] [] [] [] [] [] [] []]; vm_compute; intuition congruence.
Qed.

Lemma numeric_lstrip sp s :
  (forall c, Py.numeric c = true -> sp c = false) ->
  Py.all_chars Py.numeric s = true -> Py.lstrip_with sp s = s.
Proof.
  intros Hsp. destruct s as [|c r]; simpl; [reflexivity|].
  intros H. apply andb_true_iff in H as [Hc _]. now rewrite (Hsp c Hc).
Qed.

Lemma numeric_rstrip sp s :
  (forall c, Py.numeric c = true -> sp c = false) ->
  Py.all_chars Py.numeric s = true -> Py.rstrip_with sp s = s.
Proof.
  intros Hsp. induction s as [|c r IH]; simpl; [reflexivity|].
  intros H. apply andb_true_iff in H as [Hc Hr].
  now rewrite (Hsp c Hc), (IH Hr).
Qed.

Lemma numeric_remove_comma s :
  Py.all_chars Py.numeric s = true -> Py.remove_char "," s = s.
Proof.
  induction s as [|c r IH]; simpl; [reflexivity|].
  intros H. apply andb_true_iff in H as [Hc Hr].
  destruct (numeric_facts c Hc) as (_ & _ & ->). now rewrite (IH Hr).
Qed.

Lemma numeric_strip s :
  Py.all_chars Py.numeric s = true -> Py.strip s = s.
Proof.
  intros H. unfold Py.strip.
  assert (Hsp : forall c, Py.numeric c = true -> Py.is_space c = false)
    by (intros c Hc; apply (numeric_facts c Hc)).
  rewrite (numeric_lstrip Py.is_space s Hsp H).
  exact (numeric_rstrip Py.is_space s Hsp H).
Qed.

End DecimalFacts.

Section ParseFacts.

Variable int_max_str_digits : nat.

Local Abbreviation parse := (parse_mileage_or_none int_max_str_digits).
Local Abbreviation int := (Py.int int_max_str_digits).

(** The mileage parser is [int] on the stripped text without its commas;
    the test for the empty string changes nothing, [int] refuses it. *)
Lemma parse_run s :
  parse (Some s) = int (Py.remove_char "," (Py.strip s)).
Proof.
  unfold parse_mileage_or_none.
  destruct (Py.strip s) as [|c r]; simpl Py.is_empty; cbv iota.
  - reflexivity.
  - now destruct (int _).
Qed.

Lemma strip_blank s : Py.all_chars Py.is_space s = true -> Py.strip s = "".
Proof. intros H. unfold Py.strip. now rewrite lstrip_all_space. Qed.

Lemma digit_facts c v :
  Py.digit_value c = Some v ->
  Py.is_int_space c = false /\
  Ascii.eqb c "-" = false /\ Ascii.eqb c "+" = false.
Proof.
  destruct c as [[] [] [] [] [] [] [] []]; vm_compute; intuition congruence.
Qed.

Lemma uint_head d :
  d <> Decimal.Nil ->
  exists c r v,
    NilEmpty.string_of_uint d = String c r /\ Py.digit_value c = Some v.
Proof.
  destruct d; [congruence|..]; intros _;
    eexists _, _, _; (split; [reflexivity | vm_compute; reflexivity]).
Qed.

(** [int] on a string of digits, bare or after a minus sign. *)
Lemma int_digits s v n :
  (exists c r d, s = String c r /\ Py.digit_value c = Some d) ->
  Py.scan_digits s false 0 0 = Some (v, n, "") ->
  Py.too_many_digits int_max_str_digits n = false ->
  int s = Some v /\ int (String "-" s) = Some (- v).
Proof.
  intros (c & r & d & -> & Hd) Hscan Hlim.
  destruct (digit_facts c d Hd) as (Hsp & Hm & Hp).
  unfold Py.int. cbn [Py.lstrip_with].
  change (Py.is_int_space "-") with false. cbv iota.
  rewrite Hsp. cbn [Py.split_sign]. rewrite Hm, Hp.
  change (Ascii.eqb "-" "-") with true. cbv iota.
  cbn [Py.starts_with_digit]. rewrite Hd, Hscan.
  cbn [Py.all_chars]. now rewrite Hlim.
Qed.

Lemma to_uint_not_nil p : Pos.to_uint p <> Decimal.Nil.
Proof.
  intros H. pose proof (DecimalPos.Unsigned.of_to p) as Hp.
  rewrite H in Hp. discriminate Hp.
Qed.

Lemma str_of_pos p :
  Py.str_of_int (Z.pos p) = NilEmpty.string_of_uint (Pos.to_uint p).
Proof.
  unfold Py.str_of_int. simpl. unfold NilZero.string_of_uint.
  pose proof (to_uint_not_nil p).
  now destruct (Pos.to_uint p).
Qed.

Lemma int_str_of_pos p :
  Py.too_many_digits int_max_str_digits
    (String.length (Py.str_of_int (Z.pos p))) = false ->
  int (Py.str_of_int (Z.pos p)) = Some (Z.pos p) /\
  int (String "-" (Py.str_of_int (Z.pos p))) = Some (Z.neg p).
Proof.
  rewrite str_of_pos, length_uint. intros Hlim.
  apply (int_digits _ (Z.pos p) (Decimal.nb_digits (Pos.to_uint p))).
  - destruct (uint_head _ (to_uint_not_nil p)) as (c & r & v & H1 & H2).
    now exists c, r, v.
  - now rewrite scan_uint, DecimalPos.Unsigned.of_to.
  - assumption.
Qed.

Lemma numeric_str_of_int z :
  Py.all_chars Py.numeric (Py.str_of_int z) = true.
Proof.
  destruct z as [|p|p]; [reflexivity| |].
  - rewrite str_of_pos. apply numeric_uint.
  - change (Py.str_of_int (Z.neg p))
      with (String "-" (Py.str_of_int (Z.pos p))).
    rewrite str_of_pos. simpl. apply numeric_uint.
Qed.

(** What [str] prints for an integer, the parser reads back, negative
    numbers and zero included, as long as the interpreter accepts that
    many digits. *)
Lemma parse_str_of_int z :
  Py.too_many_digits int_max_str_digits
    (String.length (Py.str_of_int (Z.abs z))) = false ->
  parse (Some (Py.str_of_int z)) = Some z.
Proof.
  intros Hlim. rewrite parse_run.
  rewrite (numeric_strip _ (numeric_str_of_int z)).
  rewrite (numeric_remove_comma _ (numeric_str_of_int z)).
  destruct z as [|p|p]; [reflexivity| |]; simpl Z.abs in Hlim.
  - apply (int_str_of_pos p Hlim).
  - change (Py.str_of_int (Z.neg p))
      with (String "-" (Py.str_of_int (Z.pos p))).
    apply (int_str_of_pos p Hlim).
Qed.

(** C4: the mileage parser returns null on null and on empty or blank
    text; otherwise it strips the surrounding whitespace, deletes the
    commas and returns what the base-10 [int] reads, null when [int]
    refuses the text (nothing is raised); it checks no bound, every
    integer that is printed is read back, negative or not. *)
Theorem parse_mileage_contract :
  parse None = None /\
  parse (Some "") = None /\
  (forall s, Py.all_chars Py.is_space s = true -> parse (Some s) = None) /\
  (forall s, parse (Some s) = int (Py.remove_char "," (Py.strip s))) /\
  (forall z,
     Py.too_many_digits int_max_str_digits
       (String.length (Py.str_of_int (Z.abs z))) = false ->
     parse (Some (Py.str_of_int z)) = Some z) /\
  parse (Some "12,345") = Some 12345 /\
  parse (Some "12345") = Some 12345 /\
  parse (Some "abc") = None /\
  parse (Some "-5") = Some (-5).
Proof.
  split; [reflexivity|]. split; [reflexivity|].
  split; [|split; [exact parse_run|split; [exact parse_str_of_int|]]].
  - intros s H. now rewrite parse_run, (strip_blank s H).
  - repeat split; reflexivity.
Qed.

(** C9: the parser deletes every comma of the text, wherever it stands:
    its result is what [int] reads in the stripped text without any of
    its commas, so "1,2,3" is read as 123.  Deleting the commas before
    stripping gives the same result on every text without an information
    separator (0x1c to 0x1f). *)
Theorem commas_deleted_everywhere s :
  parse (Some s) = int (Py.remove_char "," (Py.strip s)) /\
  Py.all_chars (fun c => negb (Ascii.eqb c ","))
    (Py.remove_char "," (Py.strip s)) = true /\
  (Py.all_chars (fun c => negb (Py.is_separator c)) s = true ->
   parse (Some s) = int (Py.strip (Py.remove_char "," s))) /\
  parse (Some "1,2,3") = Some 123.
Proof.
  split; [apply parse_run|]. split; [apply remove_char_gone|].
  split; [|reflexivity].
  intros Hs. rewrite parse_run.
  rewrite (strip_plain s Hs).
  rewrite (strip_plain (Py.remove_char "," s))
    by now apply all_chars_remove.
  rewrite <- (strip_remove_strip Py.is_int_space eq_refl s).
  now rewrite int_rstrip, int_lstrip.
Qed.

End ParseFacts.

(** The hypothesis on separators is needed: after the comma is deleted the
    text starts with the separator 0x1c, which [str.strip] would remove but
    [int] refuses. *)
Example separator_after_comma :
  let s := String "," (String (ascii_of_nat 28) "5") in
  parse_mileage_or_none 4300 (Some s) = None /\
  Py.int 4300 (Py.strip (Py.remove_char "," s)) = Some 5.
Proof. split; reflexivity. Qed.

(** * The properties on sample data *)

Lemma overlap_report_witness :
  exists f,
    audit_findings 4300 overlap_rows 10 = Some f /\
    (In (trip 5 "2022 RAM" "1100" "1,200", 1100, 1200) (overlaps f) <->
     1150 < 1200 /\ 1250 > 1100).
Proof.
  eexists. split; [reflexivity|].
  apply (proj1 (overlap_report 4300 overlap_rows 10 _ eq_refl));
    first [reflexivity | now left].
Defined.

Lemma gap_check_witness :
  exists f,
    audit_findings 4300 gap_rows 10 = Some f /\
    previous f = Some (trip 5 "2022 RAM" "1100" "1200") /\
    In gap_message (issues f).
Proof.
  assert (Hpk : primary_key gap_rows).
  { unfold primary_key; simpl. repeat constructor; simpl; intuition lia. }
  eexists. split; [reflexivity|].
  destruct (gap_check 4300 gap_rows 10 _ Hpk eq_refl) as (_ & _ & Hgap).
  split; [reflexivity|]. apply Hgap.
  exists (trip 5 "2022 RAM" "1100" "1200"), 1200, 1210.
  repeat split; first [reflexivity | lia].
Defined.

Lemma audit_alerts_iff_issues_witness :
  audit_vehicle_mileage_and_alert 4300 delivering 99 (quiet overlap_rows) =
    (Returned tt, quiet overlap_rows) /\
  audit_vehicle_mileage_and_alert 4300 delivering 5 (quiet gap_rows) =
    (Returned tt, quiet gap_rows).
Proof.
  split.
  - destruct (audit_alerts_iff_issues 4300 delivering 99 (quiet overlap_rows))
      as (_ & _ & _ & H & _).
    apply H. reflexivity.
  - destruct (audit_alerts_iff_issues 4300 delivering 5 (quiet gap_rows))
      as (_ & H & _).
    apply H. reflexivity.
Defined.

Lemma failures_do_not_propagate_witness :
  send_mileage_error_alert refusing "subject" "text" (quiet []) =
    (Returned tt,
     logged (quiet [])
       [MailSend (alert_message (quiet []) "subject" "text");
        Print "[MileageAudit] Email send failed: SMTPServerDisconnected()"]) /\
  vehicle_form_committed broken_audit (Some "submit") 10 (quiet []) =
    (Returned (Redirect "user.form_submitted"),
     logged (quiet [])
       [Print "[MileageAudit] Audit failed: OperationalError()"]).
Proof.
  destruct (failures_do_not_propagate refusing broken_audit
              "subject" "text" (Some "submit") 10 (quiet []))
    as (_ & Hsend & _ & Hform).
  split.
  - apply (Hsend smtp_down); reflexivity.
  - apply (Hform store_down (quiet [])); reflexivity.
Defined.

Lemma audit_deterministic_witness :
  let w1 := quiet overlap_rows in
  let w2 := snd (audit_vehicle_mileage_and_alert 4300 delivering 10 w1) in
  audit_issues 4300 (table w1) 10 = audit_issues 4300 (table w2) 10 /\
  exists alert,
    alert = alert_of (audit_findings 4300 (table w1) 10) /\
    audit_vehicle_mileage_and_alert 4300 delivering 10 w1 =
      dispatch delivering alert w1 /\
    audit_vehicle_mileage_and_alert 4300 refusing 10 w2 =
      dispatch refusing alert w2.
Proof.
  intros w1 w2.
  apply (audit_deterministic 4300 delivering refusing 10 w1 w2).
  reflexivity.
Defined.

Lemma no_recipient_no_delivery_witness :
  let w := no_recipient overlap_rows in
  send_mileage_error_alert refusing "subject" "text" w =
    (Returned tt,
     logged w [Print "[MileageAudit] ALERT_EMAIL not set; skipping email."]) /\
  fst (audit_vehicle_mileage_and_alert 4300 refusing 10 w) = Returned tt /\
  List.filter is_mail
    (output (snd (audit_vehicle_mileage_and_alert 4300 refusing 10 w))) =
  List.filter is_mail (output w).
Proof.
  intros w.
  apply (no_recipient_no_delivery 4300 refusing "subject" "text" 10 w).
  reflexivity.
Defined.

Lemma parse_mileage_contract_witness :
  parse_mileage_or_none 4300 (Some "   ") = None /\
  parse_mileage_or_none 4300 (Some (Py.str_of_int (-5))) = Some (-5).
Proof.
  destruct (parse_mileage_contract 4300) as (_ & _ & Hblank & _ & Hstr & _).
  split.
  - apply Hblank. reflexivity.
  - apply Hstr. reflexivity.
Defined.

Lemma commas_deleted_everywhere_witness :
  parse_mileage_or_none 4300 (Some " ,1,2,,3 , ") =
  Py.int 4300 (Py.strip (Py.remove_char "," " ,1,2,,3 , ")).
Proof.
  destruct (commas_deleted_everywhere 4300 " ,1,2,,3 , ") as (_ & _ & H & _).
  apply H. reflexivity.
Defined.

(** The scenarios of the specification. *)

Example scenario_no_sibling :
  audit_vehicle_mileage_and_alert 4300 delivering 10
    (quiet [trip 10 "2022 RAM" "1000" "1100"]) =
  (Returned tt, quiet [trip 10 "2022 RAM" "1000" "1100"]).
Proof. reflexivity. Qed.

Example scenario_overlap :
  audit_issues 4300
    [trip 5 "2022 RAM" "1100" "1200"; trip 10 "2022 RAM" "1150" "1250"] 10 =
  ["Overlapping mileage range detected with 1 other record(s)."].
Proof. reflexivity. Qed.

Example scenario_gap :
  audit_issues 4300 gap_rows 10 =
  ["Gap > 5 miles detected to the previous record."].
Proof. reflexivity. Qed.

Example touching_ranges_do_not_overlap :
  overlapping 100 200 (trip 1 "v" "200" "300", 200, 300) = false /\
  overlapping 100 200 (trip 1 "v" "0" "100", 0, 100) = false /\
  overlapping 100 200 (trip 1 "v" "150" "250", 150, 250) = true.
Proof. repeat split. Qed.

(** * Further properties *)

Section SliceFacts.

Lemma length_append s t :
  String.length (s ++ t) = (String.length s + String.length t)%nat.
Proof. induction s as [|c r IH]; simpl; [reflexivity | now rewrite IH]. Qed.

Lemma length_take n s :
  String.length (PyStr.take n s) = Nat.min n (String.length s).
Proof.
  revert s; induction n as [|n IH]; intros [|c r]; simpl; try reflexivity.
  now rewrite IH.
Qed.

Lemma take_all n s : (String.length s <= n)%nat -> PyStr.take n s = s.
Proof.
  revert s; induction n as [|n IH]; intros [|c r]; simpl; try reflexivity.
  - lia.
  - intros H. rewrite IH; [reflexivity | lia].
Qed.

Lemma take_append n s t :
  (n <= String.length s)%nat -> PyStr.take n (s ++ t) = PyStr.take n s.
Proof.
  revert s; induction n as [|n IH]; intros [|c r]; simpl; try reflexivity.
  - lia.
  - intros H. rewrite IH; [reflexivity | lia].
Qed.

Lemma take_take n s : PyStr.take n (PyStr.take n s) = PyStr.take n s.
Proof. apply take_all. rewrite length_take. lia. Qed.

Lemma startswith_drop s prefix :
  PyStr.startswith s prefix = true ->
  s = prefix ++ PyStr.drop (String.length prefix) s.
Proof.
  revert s; induction prefix as [|a p IH]; intros s; [reflexivity|].
  destruct s as [|b r]; [discriminate|].
  cbn [PyStr.startswith]. intros H. apply andb_true_iff in H as [Hab Hr].
  apply Ascii.eqb_eq in Hab as ->.
  cbn [String.length PyStr.drop String.append].
  apply (f_equal (String b)). exact (IH r Hr).
Qed.

End SliceFacts.

(** X1: the normalised database URL never has the scheme "postgres://";
    a URL with that scheme gets "postgresql://" and keeps everything after
    it, any other URL is returned as it is; normalising twice changes
    nothing more. *)
Theorem normalize_database_url_scheme url :
  PyStr.startswith (_normalize_database_url url) "postgres://" = false /\
  _normalize_database_url (_normalize_database_url url) =
    _normalize_database_url url /\
  (if PyStr.startswith url "postgres://"
   then exists rest,
          url = "postgres://" ++ rest /\
          _normalize_database_url url = "postgresql://" ++ rest
   else _normalize_database_url url = url).
Proof.
  assert (Hq : forall rest,
            _normalize_database_url ("postgresql://" ++ rest) =
            "postgresql://" ++ rest) by reflexivity.
  assert (Hs : forall rest,
            PyStr.startswith ("postgresql://" ++ rest) "postgres://" = false)
    by reflexivity.
  destruct (PyStr.startswith url "postgres://") eqn:Hp.
  - assert (Hn : _normalize_database_url url =
                 "postgresql://" ++ PyStr.drop (String.length "postgres://") url)
      by (unfold _normalize_database_url; now rewrite Hp).
    rewrite Hn. split; [apply Hs|]. split; [apply Hq|].
    exists (PyStr.drop (String.length "postgres://") url).
    split; [now apply startswith_drop | reflexivity].
  - assert (Hn : _normalize_database_url url = url)
      by (unfold _normalize_database_url; now rewrite Hp).
    rewrite !Hn. auto.
Qed.

(** X2: what the admin list shows for a long text column is never longer
    than 43 characters and starts with the first 40 characters of the
    value; a value of at most 40 characters is shown unchanged; truncating
    the shown text again gives the same text. *)
Theorem truncate_bounded value :
  (forall v, value = Some v ->
     exists shown,
       _truncate value = Some shown /\
       (String.length shown <= 43)%nat /\
       PyStr.take 40 shown = PyStr.take 40 v /\
       ((String.length v <= 40)%nat -> shown = v)) /\
  (value = None -> _truncate value = None) /\
  _truncate (_truncate value) = _truncate value.
Proof.
  assert (Hlong : forall v, (40 < String.length v)%nat ->
            _truncate (Some v) = Some (PyStr.take 40 v ++ "...")).
  { intros v Hv. unfold _truncate.
    destruct v; [simpl in Hv; lia|]. simpl Py.is_empty.
    apply Nat.ltb_lt in Hv. now rewrite Hv. }
  assert (Hshort : forall v, (String.length v <= 40)%nat ->
            _truncate (Some v) = Some v).
  { intros v Hv. unfold _truncate.
    apply Nat.ltb_ge in Hv. rewrite Hv. now rewrite andb_false_r. }
  split; [|split; [now intros ->|]].
  - intros v ->. destruct (Nat.le_gt_cases (String.length v) 40) as [Hv|Hv].
    + exists v. rewrite (Hshort v Hv). repeat split; lia.
    + exists (PyStr.take 40 v ++ "..."). rewrite (Hlong v Hv).
      split; [reflexivity|]. split; [|split].
      * rewrite length_append, length_take.
        change (String.length "...") with 3%nat. lia.
      * rewrite take_append, take_take; [reflexivity|].
        rewrite length_take. lia.
      * lia.
  - destruct value as [v|]; [|reflexivity].
    destruct (Nat.le_gt_cases (String.length v) 40) as [Hv|Hv].
    + now rewrite (Hshort v Hv), (Hshort v Hv).
    + rewrite (Hlong v Hv), Hlong.
      * rewrite take_append, take_take; [reflexivity|].
        rewrite length_take. lia.
      * rewrite length_append, length_take.
        change (String.length "...") with 3%nat. lia.
Qed.

Section CharFacts.

Lemma all_chars_impl (p q : ascii -> bool) s :
  (forall c, p c = true -> q c = true) ->
  Py.all_chars p s = true -> Py.all_chars q s = true.
Proof.
  intros Hpq. induction s as [|c r IH]; simpl; [reflexivity|].
  intros H. apply andb_true_iff in H as [Hc Hr].
  now rewrite (Hpq c Hc), (IH Hr).
Qed.

Lemma all_chars_lstrip_inv (q sp : ascii -> bool) s :
  (forall c, sp c = true -> q c = true) ->
  Py.all_chars q (Py.lstrip_with sp s) = true -> Py.all_chars q s = true.
Proof.
  intros Hsp. induction s as [|c r IH]; simpl; [reflexivity|].
  destruct (sp c) eqn:Hc; [|tauto].
  intros H. now rewrite (Hsp c Hc), (IH H).
Qed.

Lemma all_chars_rstrip_keeps (q sp : ascii -> bool) s :
  Py.all_chars q s = true -> Py.all_chars q (Py.rstrip_with sp s) = true.
Proof.
  induction s as [|c r IH]; [reflexivity|].
  rewrite rstrip_cons. cbn [Py.all_chars].
  intros H. apply andb_true_iff in H as [Hc Hr].
  destruct (sp c && Py.all_chars sp r); [reflexivity|].
  cbn [Py.all_chars]. now rewrite Hc, (IH Hr).
Qed.

(** A text without blanks at its ends is its own strip. *)
Lemma lstrip_id (q sp : ascii -> bool) s :
  (forall c, q c = true -> sp c = false) ->
  Py.all_chars q s = true -> Py.lstrip_with sp s = s.
Proof.
  intros Hq. destruct s as [|c r]; simpl; [reflexivity|].
  intros H. apply andb_true_iff in H as [Hc _]. now rewrite (Hq c Hc).
Qed.

Lemma rstrip_id (q sp : ascii -> bool) s :
  (forall c, q c = true -> sp c = false) ->
  Py.all_chars q s = true -> Py.rstrip_with sp s = s.
Proof.
  intros Hq. induction s as [|c r IH]; simpl; [reflexivity|].
  intros H. apply andb_true_iff in H as [Hc Hr].
  now rewrite (Hq c Hc), (IH Hr).
Qed.

Lemma strip_id (q : ascii -> bool) s :
  (forall c, q c = true -> Py.is_space c = false) ->
  Py.all_chars q s = true -> Py.strip s = s.
Proof.
  intros Hq H. unfold Py.strip.
  rewrite (lstrip_id q Py.is_space s Hq H).
  exact (rstrip_id q Py.is_space s Hq H).
Qed.

Lemma remove_char_id c s :
  Py.all_chars (fun d => negb (Ascii.eqb d c)) s = true ->
  Py.remove_char c s = s.
Proof.
  induction s as [|d r IH]; simpl; [reflexivity|].
  intros H. apply andb_true_iff in H as [Hd Hr].
  apply negb_true_iff in Hd. now rewrite Hd, (IH Hr).
Qed.

Lemma int_char_facts c :
  int_char c = true ->
  negb (Py.is_separator c) = true /\ negb (Ascii.eqb c ",") = true.
Proof.
  destruct c as [[] [] [] [] [] [] [] []]; vm_compute; intuition congruence.
Qed.

Lemma grouped_char_facts c :
  grouped_char c = true -> Py.is_space c = false.
Proof. destruct c as [[] [] [] [] [] [] [] []]; vm_compute; congruence. Qed.

Lemma numeric_not_comma c :
  Py.numeric c = true -> negb (Ascii.eqb c ",") = true.
Proof. destruct c as [[] [] [] [] [] [] [] []]; vm_compute; congruence. Qed.

Lemma digit_range c d : Py.digit_value c = Some d -> 0 <= d <= 9.
Proof.
  destruct c as [[] [] [] [] [] [] [] []]; vm_compute;
    intros [= <-]; split; discriminate.
Qed.

Lemma digit_is_numeric c d : Py.digit_value c = Some d -> int_char c = true.
Proof. destruct c as [[] [] [] [] [] [] [] []]; vm_compute; congruence. Qed.

End CharFacts.

Section IntAccepts.

Variable limit : nat.

(** What [int] returns [Some] for, read off its definition. *)
Lemma int_inv s z :
  Py.int limit s = Some z ->
  exists neg body v n rest,
    Py.split_sign (Py.lstrip_with Py.is_int_space s) = (neg, body) /\
    Py.starts_with_digit body = true /\
    Py.scan_digits body false 0 0 = Some (v, n, rest) /\
    Py.all_chars Py.is_int_space rest = true /\
    Py.too_many_digits limit n = false /\
    z = (if neg then - v else v).
Proof.
  unfold Py.int.
  destruct (Py.split_sign _) as [neg body].
  destruct (Py.starts_with_digit body) eqn:Hd; [|discriminate].
  destruct (Py.scan_digits body false 0 0) as [[[v n] rest]|] eqn:Hs;
    [|discriminate].
  destruct (Py.all_chars Py.is_int_space rest) eqn:Hr; [|discriminate].
  destruct (Py.too_many_digits limit n) eqn:Hl; [discriminate|].
  intros [= <-]. now exists neg, body, v, n, rest.
Qed.

Lemma scan_digits_chars s : forall prev_us acc n v m rest,
  Py.scan_digits s prev_us acc n = Some (v, m, rest) ->
  Py.all_chars Py.is_int_space rest = true ->
  Py.all_chars int_char s = true.
Proof.
  induction s as [|c r IH]; intros prev_us acc n v m rest; [reflexivity|].
  cbn [Py.scan_digits Py.all_chars].
  destruct (Py.digit_value c) as [d|] eqn:Hd.
  - intros H Hr. rewrite (digit_is_numeric c d Hd). exact (IH _ _ _ _ _ _ H Hr).
  - destruct prev_us; [discriminate|].
    destruct (Ascii.eqb c "_") eqn:Hu.
    + intros H Hr. apply Ascii.eqb_eq in Hu as ->.
      exact (IH _ _ _ _ _ _ H Hr).
    + intros [= <- <- <-] Hr.
      apply (all_chars_impl Py.is_int_space int_char (String c r));
        [|exact Hr].
      intros a Ha. unfold int_char. now rewrite Ha.
Qed.

Lemma split_sign_chars s neg body :
  Py.split_sign s = (neg, body) ->
  Py.all_chars int_char body = true -> Py.all_chars int_char s = true.
Proof.
  destruct s as [|c r]; simpl; [now intros [= <- <-]|].
  destruct (Ascii.eqb c "-") eqn:Hm.
  - intros [= <- <-] H. apply Ascii.eqb_eq in Hm as ->. exact H.
  - destruct (Ascii.eqb c "+") eqn:Hp.
    + intros [= <- <-] H. apply Ascii.eqb_eq in Hp as ->. exact H.
    + now intros [= <- <-].
Qed.

(** A text that [int] accepts holds nothing but blanks, a sign, digits and
    underscores. *)
Lemma int_chars s z :
  Py.int limit s = Some z -> Py.all_chars int_char s = true.
Proof.
  intros H.
  destruct (int_inv s z H) as (neg & body & v & n & rest & Hs & _ & Hsc & Hr & _).
  apply (all_chars_lstrip_inv int_char Py.is_int_space).
  - intros c Hc. unfold int_char. now rewrite Hc.
  - apply (split_sign_chars _ neg body Hs).
    exact (scan_digits_chars body _ _ _ _ _ _ Hsc Hr).
Qed.

Lemma int_strip s z :
  Py.int limit s = Some z ->
  Py.remove_char "," (Py.strip s) = Py.strip s /\
  Py.int limit (Py.strip s) = Some z.
Proof.
  intros H. pose proof (int_chars s z H) as Hc.
  assert (Hplain : Py.all_chars (fun c => negb (Py.is_separator c)) s = true).
  { apply (all_chars_impl int_char); [|exact Hc].
    intros c Hi. apply (int_char_facts c Hi). }
  assert (Hcomma : Py.all_chars (fun c => negb (Ascii.eqb c ",")) s = true).
  { apply (all_chars_impl int_char); [|exact Hc].
    intros c Hi. apply (int_char_facts c Hi). }
  rewrite (strip_plain s Hplain). split.
  - apply remove_char_id.
    now apply all_chars_rstrip_keeps, all_chars_lstrip.
  - now rewrite int_rstrip, int_lstrip.
Qed.

Lemma scan_digits_bound s : forall prev_us acc k v n rest,
  Py.scan_digits s prev_us acc k = Some (v, n, rest) ->
  0 <= acc < 10 ^ Z.of_nat k ->
  0 <= v < 10 ^ Z.of_nat n.
Proof.
  induction s as [|c r IH]; intros prev_us acc k v n rest; simpl.
  - destruct prev_us; [discriminate|]. now intros [= <- <- <-].
  - destruct (Py.digit_value c) as [d|] eqn:Hd.
    + intros H Ha. apply (IH _ _ _ _ _ _ H).
      pose proof (digit_range c d Hd).
      rewrite Nat2Z.inj_succ, Z.pow_succ_r by lia. lia.
    + destruct prev_us; [discriminate|].
      destruct (Ascii.eqb c "_"); [apply IH|].
      now intros [= <- <- <-].
Qed.

Lemma of_uint_acc_lower d : forall acc,
  Z.pos acc * 10 ^ Z.of_nat (Decimal.nb_digits d) <=
  Z.pos (Pos.of_uint_acc d acc).
Proof.
  induction d; intros acc; cbn [Pos.of_uint_acc Decimal.nb_digits];
    try (rewrite Nat2Z.inj_succ, Z.pow_succ_r by lia).
  - simpl. lia.
  - specialize (IHd (10 * acc)%positive). nia.
  - specialize (IHd (1 + 10 * acc)%positive). nia.
  - specialize (IHd (2 + 10 * acc)%positive). nia.
  - specialize (IHd (3 + 10 * acc)%positive). nia.
  - specialize (IHd (4 + 10 * acc)%positive). nia.
  - specialize (IHd (5 + 10 * acc)%positive). nia.
  - specialize (IHd (6 + 10 * acc)%positive). nia.
  - specialize (IHd (7 + 10 * acc)%positive). nia.
  - specialize (IHd (8 + 10 * acc)%positive). nia.
  - specialize (IHd (9 + 10 * acc)%positive). nia.
Qed.

End IntAccepts.

Section CommaFacts.

Variable int_max_str_digits : nat.
Variable float_commas : string -> option string.

Local Abbreviation parse := (parse_mileage_or_none int_max_str_digits).
Local Abbreviation int := (Py.int int_max_str_digits).

(** The decimal writing of a positive number has no leading zero, so a
    number below 10^n is written with at most n digits. *)
Lemma to_uint_head_not_zero p d : Pos.to_uint p <> Decimal.D0 d.
Proof.
  intros H.
  pose proof (DecimalPos.Unsigned.to_of (Pos.to_uint p)) as Hn.
  rewrite DecimalPos.Unsigned.of_to in Hn. simpl N.to_uint in Hn.
  rewrite H in Hn. unfold Decimal.unorm in Hn. simpl Decimal.nzhead in Hn.
  pose proof (DecimalFacts.nb_digits_nzhead d) as Hle.
  destruct (Decimal.nzhead d) eqn:Hz.
  - injection Hn as Hd. subst d.
    apply (DecimalPos.Unsigned.to_uint_nonzero p). exact H.
  - rewrite <- Hn in Hle. simpl in Hle. lia.
  - discriminate Hn.
  - discriminate Hn.
  - discriminate Hn.
  - discriminate Hn.
  - discriminate Hn.
  - discriminate Hn.
  - discriminate Hn.
  - discriminate Hn.
  - discriminate Hn.
Qed.

Lemma to_uint_lower p :
  10 ^ (Z.of_nat (Decimal.nb_digits (Pos.to_uint p)) - 1) <= Z.pos p.
Proof.
  pose proof (DecimalPos.Unsigned.of_to p) as Hp.
  pose proof (to_uint_head_not_zero p) as H0.
  pose proof (to_uint_not_nil p) as Hnil.
  destruct (Pos.to_uint p) as [|d|d|d|d|d|d|d|d|d|d];
    [congruence | exfalso; exact (H0 d eq_refl) |..];
    simpl Pos.of_uint in Hp; injection Hp as <-;
    cbn [Decimal.nb_digits];
    match goal with
    | |- _ <= Z.pos (Pos.of_uint_acc _ ?k) =>
        pose proof (of_uint_acc_lower d k)
    end;
    replace (Z.of_nat (S (Decimal.nb_digits d)) - 1)
      with (Z.of_nat (Decimal.nb_digits d)) by lia;
    assert (0 < 10 ^ Z.of_nat (Decimal.nb_digits d))
      by (apply Z.pow_pos_nonneg; lia);
    nia.
Qed.

Lemma to_uint_digits p n :
  Z.pos p < 10 ^ Z.of_nat n -> (Decimal.nb_digits (Pos.to_uint p) <= n)%nat.
Proof.
  intros H. pose proof (to_uint_lower p) as Hl.
  destruct (Nat.le_gt_cases (Decimal.nb_digits (Pos.to_uint p)) n) as [|Hgt];
    [assumption|exfalso].
  assert (10 ^ Z.of_nat n <=
          10 ^ (Z.of_nat (Decimal.nb_digits (Pos.to_uint p)) - 1))
    by (apply Z.pow_le_mono_r; lia).
  lia.
Qed.

Lemma too_many_digits_mono n m :
  (m <= n)%nat ->
  Py.too_many_digits int_max_str_digits n = false ->
  Py.too_many_digits int_max_str_digits m = false.
Proof.
  unfold Py.too_many_digits. intros Hmn H.
  destruct (Nat.ltb_spec 640 m); [|reflexivity].
  destruct (Nat.ltb_spec 0 int_max_str_digits); [|reflexivity].
  destruct (Nat.ltb_spec int_max_str_digits m); [|reflexivity].
  destruct (Nat.ltb_spec 640 n); [|lia].
  destruct (Nat.ltb_spec int_max_str_digits n); [discriminate H | lia].
Qed.

(** The digits of a number that [int] has read are within the limit. *)
Lemma int_digits_within s z :
  int s = Some z ->
  Py.too_many_digits int_max_str_digits
    (String.length (Py.str_of_int (Z.abs z))) = false.
Proof.
  intros H.
  destruct (int_inv _ s z H)
    as (neg & body & v & n & rest & _ & _ & Hsc & _ & Hl & ->).
  assert (Hv : 0 <= v < 10 ^ Z.of_nat n)
    by (apply (scan_digits_bound body _ _ _ _ _ _ Hsc); simpl; lia).
  replace (Z.abs (if neg then - v else v)) with v by (destruct neg; lia).
  destruct v as [|p|p]; [reflexivity| |lia].
  rewrite str_of_pos, length_uint.
  apply (too_many_digits_mono n); [|exact Hl].
  apply to_uint_digits. lia.
Qed.

(** X3: wherever [int] accepts a text, the mileage parser reads the same
    number: the parser only adds to what [int] reads. *)
Theorem mileage_parser_extends_int s z :
  int s = Some z -> parse (Some s) = Some z.
Proof.
  intros H. rewrite parse_run.
  destruct (int_strip _ s z H) as [Hc Hi]. now rewrite Hc.
Qed.

Lemma all_chars_group (q : ascii -> bool) (s : string) :
  q ","%char = true ->
  Py.all_chars q s = true -> Py.all_chars q (PyStr.group_thousands s) = true.
Proof.
  intros Hq. induction s as [|c r IH]; simpl; [reflexivity|].
  intros H. apply andb_true_iff in H as [Hc Hr]. rewrite Hc.
  destruct (negb (Py.is_empty r) && _); simpl; [rewrite Hq|]; auto.
Qed.

Lemma remove_commas_group s :
  Py.all_chars (fun c => negb (Ascii.eqb c ",")) s = true ->
  Py.remove_char "," (PyStr.group_thousands s) = s.
Proof.
  induction s as [|c r IH]; simpl; [reflexivity|].
  intros H. apply andb_true_iff in H as [Hc Hr].
  apply negb_true_iff in Hc. rewrite Hc.
  destruct (negb (Py.is_empty r) && _); simpl; now rewrite (IH Hr).
Qed.

Lemma str_of_int_neg z :
  z < 0 -> Py.str_of_int z = String "-" (Py.str_of_int (- z)).
Proof. destruct z as [|p|p]; [lia | lia | reflexivity]. Qed.

Lemma not_comma_str_of_int z :
  Py.all_chars (fun c => negb (Ascii.eqb c ",")) (Py.str_of_int z) = true.
Proof.
  apply (all_chars_impl Py.numeric); [exact numeric_not_comma|].
  apply numeric_str_of_int.
Qed.

(** Deleting the commas of [f"{n:,}"] gives [str(n)]. *)
Lemma remove_commas_format z :
  Py.remove_char "," (PyStr.format_commas z) = Py.str_of_int z.
Proof.
  unfold PyStr.format_commas. destruct (Z.ltb_spec z 0).
  - rewrite (str_of_int_neg z) by assumption.
    cbn [Py.remove_char]. change (Ascii.eqb "-" ",") with false. cbv iota.
    now rewrite remove_commas_group by apply not_comma_str_of_int.
  - apply remove_commas_group, not_comma_str_of_int.
Qed.

Lemma grouped_format z :
  Py.all_chars grouped_char (PyStr.format_commas z) = true.
Proof.
  assert (H : forall n, Py.all_chars grouped_char
                          (PyStr.group_thousands (Py.str_of_int n)) = true).
  { intros n. apply all_chars_group; [reflexivity|].
    apply (all_chars_impl Py.numeric); [|apply numeric_str_of_int].
    intros c Hc. unfold grouped_char. now rewrite Hc. }
  unfold PyStr.format_commas. destruct (z <? 0)%Z; [|apply H].
  cbn [Py.all_chars]. now rewrite H.
Qed.

(** The parser reads a number written with thousands separators as it
    reads the number written without. *)
Lemma parse_format z :
  parse (Some (PyStr.format_commas z)) = parse (Some (Py.str_of_int z)).
Proof.
  rewrite !parse_run.
  rewrite (strip_id grouped_char _ grouped_char_facts (grouped_format z)).
  rewrite remove_commas_format.
  rewrite (numeric_strip _ (numeric_str_of_int z)).
  now rewrite (numeric_remove_comma _ (numeric_str_of_int z)).
Qed.

(** X4: a mileage text that [int] accepts is shown by the [comma] filter,
    and by the admin list, as the number with thousands separators, and
    what is shown reads back through the mileage parser as the same
    number; without its commas the shown text is [str] of the number. *)
Theorem comma_round_trip v z :
  int v = Some z ->
  comma_format int_max_str_digits float_commas (Some v) =
    PyStr.format_commas z /\
  _format_commas int_max_str_digits float_commas (Some v) =
    PyStr.format_commas z /\
  Py.remove_char "," (PyStr.format_commas z) = Py.str_of_int z /\
  parse (Some (comma_format int_max_str_digits float_commas (Some v))) =
    Some z.
Proof.
  intros H.
  assert (Hne : String.eqb v "" = false).
  { destruct v; [discriminate H | reflexivity]. }
  assert (Hc : comma_format int_max_str_digits float_commas (Some v) =
               PyStr.format_commas z)
    by (unfold comma_format; now rewrite Hne, H).
  split; [exact Hc|]. split; [unfold _format_commas; now rewrite Hne, H|].
  split; [apply remove_commas_format|].
  rewrite Hc, parse_format.
  apply parse_str_of_int. exact (int_digits_within v z H).
Qed.

End CommaFacts.

Section AuditMore.

Variable int_max_str_digits : nat.
Variable transport : Message -> world -> option exn.

Local Abbreviation parse := (parse_mileage_or_none int_max_str_digits).
Local Abbreviation findings_of := (audit_findings int_max_str_digits).
Local Abbreviation audit :=
  (audit_vehicle_mileage_and_alert int_max_str_digits transport).

(** When a candidate is in the overlaps of a run. *)
Lemma in_overlaps rows record_id f r s e :
  findings_of rows record_id = Some f ->
  In (r, s, e) (overlaps f) <->
  (In r rows /\ sibling_of (Some (vehicle_key f)) (target f) r) /\
  (parse (V.start_mileage r) = Some s /\ parse (V.end_mileage r) = Some e) /\
  exists a b, start0 f = Some a /\ end0 f = Some b /\ a < e /\ b > s.
Proof.
  intros Hf.
  destruct (findings_inv _ _ _ _ Hf)
    as (_ & _ & _ & _ & _ & _ & Hsib & Hov & _ & _).
  rewrite Hov, in_find_overlaps, in_parse_rows, Hsib, in_others_query.
  tauto.
Qed.

(** With a primary key, the target of a run on the id of a row is the
    row. *)
Lemma findings_target rows a f :
  primary_key rows -> In a rows ->
  findings_of rows (V.id a) = Some f -> target f = a.
Proof.
  intros Hpk Ha Hf.
  destruct (findings_inv _ _ _ _ Hf) as (Hget & _).
  apply get_some in Hget as [Hin Hid].
  now apply (primary_key_inj rows).
Qed.

(** X5: overlap reports are symmetric.  For two submitted rows of one
    vehicle, stored without surrounding whitespace, whose four mileages
    parse: the audit of the first reports the second as overlapping
    exactly when the audit of the second reports the first. *)
Theorem overlap_reports_symmetric rows a b fa fb v sa ea sb eb :
  primary_key rows ->
  In a rows -> In b rows -> V.id a <> V.id b ->
  V.vehicle a = Some v -> V.vehicle b = Some v -> Py.strip v = v ->
  findings_of rows (V.id a) = Some fa ->
  findings_of rows (V.id b) = Some fb ->
  parse (V.start_mileage a) = Some sa -> parse (V.end_mileage a) = Some ea ->
  parse (V.start_mileage b) = Some sb -> parse (V.end_mileage b) = Some eb ->
  (In (b, sb, eb) (overlaps fa) <-> In (a, sa, ea) (overlaps fb)).
Proof.
  intros Hpk Ha Hb Hne Hva Hvb Hv Hfa Hfb Hsa Hea Hsb Heb.
  pose proof (findings_target rows a fa Hpk Ha Hfa) as Hta.
  pose proof (findings_target rows b fb Hpk Hb Hfb) as Htb.
  destruct (findings_inv _ _ _ _ Hfa)
    as (_ & Hsta & Hka & _ & Hs0a & He0a & _).
  destruct (findings_inv _ _ _ _ Hfb)
    as (_ & Hstb & Hkb & _ & Hs0b & He0b & _).
  rewrite Hta in *. rewrite Htb in *.
  rewrite Hva in Hka; rewrite Hvb in Hkb. simpl in Hka, Hkb.
  rewrite Hv in Hka, Hkb.
  rewrite Hsa in Hs0a; rewrite Hea in He0a.
  rewrite Hsb in Hs0b; rewrite Heb in He0b.
  rewrite (in_overlaps rows (V.id a) fa b sb eb Hfa).
  rewrite (in_overlaps rows (V.id b) fb a sa ea Hfb).
  rewrite Hta, Htb, Hka, Hkb, Hs0a, He0a, Hs0b, He0b.
  unfold sibling_of. split.
  - intros (_ & _ & x & y & [= <-] & [= <-] & H1 & H2).
    split; [split; [assumption|]; repeat split; congruence|].
    split; [tauto|]. exists sb, eb. repeat split; lia.
  - intros (_ & _ & x & y & [= <-] & [= <-] & H1 & H2).
    split; [split; [assumption|]; repeat split; congruence|].
    split; [tauto|]. exists sa, ea. repeat split; lia.
Qed.

Lemma length_validity s0 e0 : (length (validity_issues s0 e0) <= 1)%nat.
Proof.
  unfold validity_issues.
  destruct s0 as [s|]; [destruct e0 as [e|]; [destruct (e <? s)%Z|]|];
    simpl; lia.
Qed.

Lemma length_overlap_issues ov : (length (overlap_issues ov) <= 1)%nat.
Proof. destruct ov; simpl; lia. Qed.

Lemma length_gap_issues s0 prev :
  (length (gap_issues int_max_str_digits s0 prev) <= 1)%nat.
Proof.
  unfold gap_issues. destruct prev as [p|]; [|simpl; lia].
  destruct s0 as [s|]; [|simpl; lia].
  destruct (parse (V.end_mileage p)) as [e|]; [|simpl; lia].
  destruct (s - e >? 5)%Z; simpl; lia.
Qed.

Lemma in_validity_invalid s0 e0 :
  In invalid_message (validity_issues s0 e0) <-> s0 = None \/ e0 = None.
Proof.
  unfold validity_issues, invalid_message.
  destruct s0 as [s|]; [destruct e0 as [e|]; [destruct (e <? s)%Z|]|]; simpl;
    intuition discriminate.
Qed.

Lemma invalid_not_overlap ov : ~ In invalid_message (overlap_issues ov).
Proof.
  unfold overlap_issues, invalid_message.
  destruct ov; simpl; intuition discriminate.
Qed.

Lemma invalid_not_gap s0 prev :
  ~ In invalid_message (gap_issues int_max_str_digits s0 prev).
Proof.
  unfold gap_issues, invalid_message.
  destruct prev as [p|]; [|intros []].
  destruct s0 as [s|]; [|intros []].
  destruct (parse (V.end_mileage p)) as [e|]; [|intros []].
  destruct (s - e >? 5)%Z; simpl; intuition discriminate.
Qed.

(** X6: a run collects at most three issues; the issue "Invalid or missing
    mileage" is among them exactly when a mileage of the target does not
    parse, and then no record is reported as overlapping, whatever the
    siblings hold. *)
Theorem invalid_mileage_suppresses_overlaps rows record_id f :
  findings_of rows record_id = Some f ->
  (length (issues f) <= 3)%nat /\
  (In invalid_message (issues f) <-> start0 f = None \/ end0 f = None) /\
  (In invalid_message (issues f) -> overlaps f = []).
Proof.
  intros Hf.
  destruct (findings_inv _ _ _ _ Hf)
    as (_ & _ & _ & _ & _ & _ & _ & Hov & _ & Hiss).
  assert (Hinv : In invalid_message (issues f) <->
                 start0 f = None \/ end0 f = None).
  { rewrite Hiss, !in_app_iff, in_validity_invalid.
    pose proof (invalid_not_overlap (overlaps f)).
    pose proof (invalid_not_gap (start0 f) (previous f)). tauto. }
  split; [|split; [exact Hinv|]].
  - rewrite Hiss, !length_app.
    pose proof (length_validity (start0 f) (end0 f)).
    pose proof (length_overlap_issues (overlaps f)).
    pose proof (length_gap_issues (start0 f) (previous f)). lia.
  - intros H. apply Hinv in H. rewrite Hov. unfold find_overlaps.
    destruct H as [-> | ->]; [reflexivity | now destruct (start0 f)].
Qed.

(** X7: when the gap issue is raised, the previous record is not among the
    records reported as overlapping: one record never explains both
    findings. *)
Theorem gap_excludes_overlap_with_previous rows record_id f p :
  findings_of rows record_id = Some f ->
  In gap_message (issues f) ->
  previous f = Some p ->
  forall s e, ~ In (p, s, e) (overlaps f).
Proof.
  intros Hf Hgap Hprev s e Hin.
  destruct (findings_inv _ _ _ _ Hf)
    as (_ & _ & _ & _ & _ & _ & _ & _ & _ & Hiss).
  rewrite Hiss, !in_app_iff in Hgap.
  destruct Hgap as [[Hg|Hg]|Hg].
  - exact (gap_message_not_validity _ _ Hg).
  - exact (gap_message_not_overlap _ Hg).
  - apply in_gap_issues in Hg as (p' & prev_e & s0 & Hp' & Hpe & Hs0 & Hgt).
    rewrite Hprev in Hp'. injection Hp' as <-.
    apply (in_overlaps rows record_id f p s e Hf) in Hin
      as (_ & (_ & He) & a & b & Ha & _ & Hlt & _).
    rewrite Hpe in He. injection He as <-.
    rewrite Hs0 in Ha. injection Ha as <-. lia.
Qed.

(** The events of a run. *)
Lemma audit_events record_id w :
  exists es,
    audit record_id w = (Returned tt, logged w es) /\
    (length (List.filter is_mail es) <= 1)%nat /\
    forall m, In (MailSend m) es ->
      sender m = alert_email_in w /\
      recipients m = [alert_email_in w] /\
      alert_email_in w <> "" /\
      (environ w !! "ALERT_EMAIL" = None ->
       alert_email_in w = "yuhuitestict@gmail.com").
Proof.
  rewrite audit_run.
  destruct (alert_of _) as [[subj text]|]; simpl.
  - rewrite send_run.
    destruct (Py.is_empty (alert_email_in w)) eqn:He.
    + eexists; split; [reflexivity|]. split; [simpl; lia|].
      intros m [H|[]]; discriminate H.
    + assert (Hm : forall m, MailSend (alert_message w subj text) = MailSend m ->
                sender m = alert_email_in w /\
                recipients m = [alert_email_in w] /\
                alert_email_in w <> "" /\
                (environ w !! "ALERT_EMAIL" = None ->
                 alert_email_in w = "yuhuitestict@gmail.com")).
      { intros m [= <-]. repeat split.
        - intros H. rewrite H in He. discriminate He.
        - intros Hn. unfold alert_email_in. now rewrite Hn. }
      destruct (transport _ w); (eexists; split; [reflexivity|]);
        (split; [simpl; lia|]).
      * intros m [H|[H|[]]]; [now apply Hm | discriminate H].
      * intros m [H|[]]. now apply Hm.
  - exists []. rewrite logged_nil. split; [reflexivity|].
    split; [simpl; lia|]. intros m [].
Qed.

(** X8: a run of the audit hands at most one message to the mail
    transport, and only a message whose sender and single recipient are
    the configured alert address (the built-in address when ALERT_EMAIL is
    not set), which is not empty. *)
Theorem audit_mails_only_the_alert_address record_id w m :
  let w' := snd (audit record_id w) in
  (length (List.filter is_mail (output w')) <=
   length (List.filter is_mail (output w)) + 1)%nat /\
  (In (MailSend m) (output w') ->
   In (MailSend m) (output w) \/
   (sender m = alert_email_in w /\
    recipients m = [alert_email_in w] /\
    alert_email_in w <> "" /\
    (environ w !! "ALERT_EMAIL" = None ->
     alert_email_in w = "yuhuitestict@gmail.com"))).
Proof.
  destruct (audit_events record_id w) as (es & -> & Hlen & Hm). simpl.
  split.
  - rewrite List.filter_app, length_app. lia.
  - intros H. apply in_app_iff in H as [H|H]; [now left | right; auto].
Qed.

End AuditMore.

Section HandlerFacts.

Variable int_max_str_digits : nat.
Variable transport : Message -> world -> option exn.
Variable strptime : string -> string -> outcome date.
Variable user_email : string.
Variable today : string.
Variable next_id : Z.

Local Abbreviation handler :=
  (vehicle_form int_max_str_digits transport strptime user_email today next_id).
Local Abbreviation audit :=
  (audit_vehicle_mileage_and_alert int_max_str_digits transport).
Local Abbreviation read_date := (parse_date_or_none strptime).
Local Abbreviation draft_id := (draft_id_of int_max_str_digits).
Local Abbreviation fresh := (new_record user_email next_id).
Local Abbreviation finish := (committed int_max_str_digits transport).

(** Reading a date does not look at the world nor change it. *)
Lemma read_date_run s w w0 :
  read_date s w = (fst (read_date s w0), w).
Proof.
  unfold parse_date_or_none.
  destruct (Py.is_empty _); [reflexivity|].
  now destruct (strptime _ _).
Qed.

Lemma load_draft_run d w :
  load_draft user_email d w =
  (Returned (draft_of user_email (table w) (default 0 d)), w).
Proof.
  unfold load_draft, draft_of, bind, Query.run.
  destruct (Query.get _ (table w)) as [r|]; [|reflexivity].
  now destruct (field_ne (V.email r) user_email).
Qed.

(** After the commit: the audit runs unless the action is "save", and the
    handler redirects. *)
Lemma committed_run action record_id w :
  vehicle_form_committed audit action record_id w =
  (Returned (Redirect (if action_ne action "save"
                       then "user.form_submitted"
                       else "user.user_my_forms")),
   if action_ne action "save" then snd (audit record_id w) else w).
Proof.
  unfold vehicle_form_committed, bind, try_except.
  destruct (action_ne action "save"); [|reflexivity].
  destruct (audit_returns int_max_str_digits transport record_id w)
    as (es & -> & _).
  reflexivity.
Qed.

(** A POST whose two dates are read. *)
Lemma post_run req w ddate rdate :
  method req = "POST" ->
  fst (read_date (form req !! "dep_date") w) = Returned ddate ->
  fst (read_date (form req !! "ret_date") w) = Returned rdate ->
  handler req w =
  if truthy (draft_id req) then
    match draft_of user_email (table w) (default 0 (draft_id req)) with
    | None => (Returned UnauthorizedDraft, w)
    | Some r =>
        finish req w (replace_row (fill today req ddate rdate r) (table w))
          (fill today req ddate rdate r)
    end
  else
    finish req w (insert_row (fill today req ddate rdate fresh) (table w))
      (fill today req ddate rdate fresh).
Proof.
  intros Hm Hdep Hret. unfold vehicle_form. rewrite Hm.
  change (("POST" =? "POST")%string) with true. cbv iota zeta.
  unfold bind at 1. rewrite (read_date_run _ w w), Hdep.
  unfold bind at 1. rewrite (read_date_run _ w w), Hret.
  unfold bind at 1.
  destruct (truthy (draft_id req)).
  - unfold bind at 1. rewrite load_draft_run.
    destruct (draft_of user_email (table w) _) as [r|]; [|reflexivity].
    unfold ret at 1. unfold bind at 1. unfold commit at 1.
    unfold bind at 1. rewrite committed_run. reflexivity.
  - unfold ret at 1. unfold bind at 1. unfold commit at 1.
    unfold bind at 1. rewrite committed_run. reflexivity.
Qed.

(** A POST one of whose dates is refused. *)
Lemma post_bad_date req w e :
  method req = "POST" ->
  fst (read_date (form req !! "dep_date") w) = Raised e \/
  (exists ddate,
     fst (read_date (form req !! "dep_date") w) = Returned ddate /\
     fst (read_date (form req !! "ret_date") w) = Raised e) ->
  handler req w = (Raised e, w).
Proof.
  intros Hm H. unfold vehicle_form. rewrite Hm.
  change (("POST" =? "POST")%string) with true. cbv iota zeta.
  unfold bind at 1. rewrite (read_date_run _ w w).
  destruct H as [Hdep | (ddate & Hdep & Hret)]; rewrite Hdep; [reflexivity|].
  unfold bind at 1. rewrite (read_date_run _ w w), Hret. reflexivity.
Qed.

(** Any other request: the page of the form. *)
Lemma get_run req w :
  method req <> "POST" ->
  handler req w =
  let last_end_mileage :=
    match last_submitted (table w) with
    | Some last => V.end_mileage last
    | None => Some ""
    end in
  (Returned
     (if truthy (draft_id req) then
        match draft_of user_email (table w) (default 0 (draft_id req)) with
        | None => UnauthorizedDraft
        | Some r => FormPage last_end_mileage user_email (Some r)
        end
      else FormPage last_end_mileage user_email None),
   w).
Proof.
  intros Hm. apply String.eqb_neq in Hm. unfold vehicle_form. rewrite Hm.
  cbv iota zeta. unfold bind at 1.
  destruct (truthy (draft_id req)).
  - unfold bind at 1. rewrite load_draft_run.
    now destruct (draft_of user_email (table w) _).
  - reflexivity.
Qed.

Lemma draft_of_some rows i r :
  draft_of user_email rows i = Some r ->
  Query.get i rows = Some r /\ V.email r = Some user_email /\
  owned_by user_email r = true.
Proof.
  unfold draft_of, owned_by.
  destruct (Query.get i rows) as [x|]; [|discriminate].
  destruct (field_ne (V.email x) user_email) eqn:Hne; [discriminate|].
  intros [= <-]. repeat split; [|now rewrite Hne].
  unfold field_ne in Hne. destruct (V.email x) as [m|]; [|discriminate].
  apply negb_false_iff, String.eqb_eq in Hne. now subst.
Qed.

Lemma owned_by_email r :
  owned_by user_email r = true <-> V.email r = Some user_email.
Proof.
  unfold owned_by, field_ne. destruct (V.email r) as [m|]; simpl.
  - rewrite negb_involutive. destruct (String.eqb_spec m user_email);
      split; congruence.
  - split; discriminate.
Qed.

Lemma get_replace_row r rows r0 :
  Query.get (V.id r) rows = Some r0 ->
  Query.get (V.id r) (replace_row r rows) = Some r.
Proof.
  unfold Query.get. induction rows as [|x rest IH]; simpl; [discriminate|].
  destruct (V.id x =? V.id r)%Z eqn:Hx; simpl.
  - now rewrite Z.eqb_refl.
  - now rewrite Hx.
Qed.

Lemma get_replace_row_other r rows i :
  i <> V.id r -> Query.get i (replace_row r rows) = Query.get i rows.
Proof.
  intros Hi. unfold Query.get.
  induction rows as [|x rest IH]; simpl; [reflexivity|].
  destruct (V.id x =? V.id r)%Z eqn:Hx; simpl.
  - apply Z.eqb_eq in Hx. rewrite Hx.
    destruct (Z.eqb_spec (V.id r) i); [congruence | reflexivity].
  - now rewrite IH.
Qed.

Lemma get_insert_row r rows :
  fresh_id (V.id r) rows ->
  Query.get (V.id r) (insert_row r rows) = Some r.
Proof.
  unfold Query.get, insert_row, fresh_id.
  induction rows as [|x rest IH]; simpl; intros Hf.
  - now rewrite Z.eqb_refl.
  - destruct (Z.eqb_spec (V.id x) (V.id r)) as [Heq|_].
    + exfalso. apply (Hf x); [now left | exact Heq].
    + apply IH. intros q Hq. apply Hf. now right.
Qed.

Lemma get_insert_row_other r rows i :
  i <> V.id r -> Query.get i (insert_row r rows) = Query.get i rows.
Proof.
  intros Hi. unfold Query.get, insert_row.
  induction rows as [|x rest IH]; simpl.
  - destruct (Z.eqb_spec (V.id r) i); [congruence | reflexivity].
  - now rewrite IH.
Qed.

Lemma others_replace_row r rows r0 :
  Query.get (V.id r) rows = Some r0 ->
  owned_by user_email r0 = true -> owned_by user_email r = true ->
  List.filter (fun x => negb (owned_by user_email x)) (replace_row r rows) =
  List.filter (fun x => negb (owned_by user_email x)) rows.
Proof.
  unfold Query.get. intros Hget H0 Hr.
  induction rows as [|x rest IH]; simpl in *; [reflexivity|].
  destruct (V.id x =? V.id r)%Z; simpl.
  - injection Hget as ->. now rewrite H0, Hr.
  - now rewrite (IH Hget).
Qed.

Lemma others_insert_row r rows :
  owned_by user_email r = true ->
  List.filter (fun x => negb (owned_by user_email x)) (insert_row r rows) =
  List.filter (fun x => negb (owned_by user_email x)) rows.
Proof.
  intros Hr. unfold insert_row. rewrite List.filter_app. simpl.
  rewrite Hr. simpl. apply app_nil_r.
Qed.

Lemma table_committed req w rows r :
  table (snd (finish req w rows r)) = rows.
Proof.
  unfold committed. simpl.
  destruct (action_ne _ "save"); [|reflexivity].
  apply (audit_table int_max_str_digits transport).
Qed.

(** X9: a date that cannot be read stops a POST before anything is looked
    up, stored or audited: the handler raises the error of the date reader
    and the world is as it was. *)
Theorem unreadable_date_stops_the_post req w e :
  method req = "POST" ->
  fst (parse_date_or_none strptime (form req !! "dep_date") w) = Raised e \/
  (exists ddate,
     fst (parse_date_or_none strptime (form req !! "dep_date") w) =
       Returned ddate /\
     fst (parse_date_or_none strptime (form req !! "ret_date") w) =
       Raised e) ->
  vehicle_form int_max_str_digits transport strptime user_email today next_id
    req w = (Raised e, w).
Proof. exact (post_bad_date req w e). Qed.

(** What a request can do to the table. *)
Lemma handler_table req w :
  table (snd (handler req w)) = table w \/
  (exists ddate rdate r0,
     draft_of user_email (table w) (default 0 (draft_id req)) = Some r0 /\
     table (snd (handler req w)) =
       replace_row (fill today req ddate rdate r0) (table w)) \/
  (exists ddate rdate,
     table (snd (handler req w)) =
       insert_row (fill today req ddate rdate fresh) (table w)).
Proof.
  destruct (String.eqb_spec (method req) "POST") as [Hm|Hm].
  - destruct (fst (read_date (form req !! "dep_date") w)) as [ddate|e] eqn:Hd.
    + destruct (fst (read_date (form req !! "ret_date") w)) as [rdate|e] eqn:Hr.
      * rewrite (post_run req w ddate rdate Hm Hd Hr).
        destruct (truthy (draft_id req)).
        -- destruct (draft_of user_email (table w) _) as [r0|] eqn:Hdraft;
             [|now left].
           right; left. exists ddate, rdate, r0.
           split; [reflexivity | apply table_committed].
        -- right; right. exists ddate, rdate. apply table_committed.
      * left. rewrite (post_bad_date req w e Hm); [reflexivity|].
        right. now exists ddate.
    + left. rewrite (post_bad_date req w e Hm); [reflexivity | now left].
  - left. now rewrite (get_run req w Hm).
Qed.

(** X10: no request to the form handler, whatever it holds, changes or
    removes a row of another user: the rows that do not carry the email of
    the logged-in user are the same, in the same order, after it. *)
Theorem rows_of_other_users_untouched req w :
  List.filter (fun r => negb (owned_by user_email r))
    (table (snd (handler req w))) =
  List.filter (fun r => negb (owned_by user_email r)) (table w).
Proof.
  destruct (handler_table req w)
    as [-> | [(ddate & rdate & r0 & Hdraft & ->) | (ddate & rdate & ->)]].
  - reflexivity.
  - apply draft_of_some in Hdraft as (Hget & Hmail & Hown).
    apply get_some in Hget as Hid. destruct Hid as [_ Hid].
    apply (others_replace_row _ _ r0).
    + simpl. now rewrite Hid.
    + exact Hown.
    + apply owned_by_email. exact Hmail.
  - apply others_insert_row. now apply owned_by_email.
Qed.

(** X11: the record of another user is neither shown nor taken as a draft:
    [user_view_form] answers 403 for it, [vehicle_form] answers 403 for it
    (or fails on an unreadable date), and the world is unchanged. *)
Theorem foreign_record_refused req i r w :
  Query.get i (table w) = Some r ->
  V.email r <> Some user_email ->
  user_view_form user_email i w = (Returned Unauthorized, w) /\
  (draft_id req = Some i -> i <> 0 ->
   snd (handler req w) = w /\
   (fst (handler req w) = Returned UnauthorizedDraft \/
    method req = "POST" /\ exists e, fst (handler req w) = Raised e)).
Proof.
  intros Hget Hmail.
  assert (Hne : field_ne (V.email r) user_email = true).
  { unfold field_ne. destruct (V.email r) as [m|]; [|reflexivity].
    destruct (String.eqb_spec m user_email); [congruence | reflexivity]. }
  split.
  - unfold user_view_form, bind, Query.run. now rewrite Hget, Hne.
  - intros Hid Hi.
    assert (Ht : truthy (draft_id req) = true).
    { rewrite Hid. simpl. now apply negb_true_iff, Z.eqb_neq. }
    assert (Hd : draft_of user_email (table w) (default 0 (draft_id req)) = None).
    { rewrite Hid. simpl. unfold draft_of. now rewrite Hget, Hne. }
    destruct (String.eqb_spec (method req) "POST") as [Hm|Hm].
    + destruct (fst (read_date (form req !! "dep_date") w)) as [ddate|e] eqn:Hdd.
      * destruct (fst (read_date (form req !! "ret_date") w)) as [rdate|e] eqn:Hrd.
        -- rewrite (post_run req w ddate rdate Hm Hdd Hrd), Ht, Hd. auto.
        -- rewrite (post_bad_date req w e Hm) by (right; now exists ddate).
           split; [reflexivity|]. right. split; [assumption|]. now exists e.
      * rewrite (post_bad_date req w e Hm) by now left.
        split; [reflexivity|]. right. split; [assumption|]. now exists e.
    + rewrite (get_run req w Hm). simpl. rewrite Ht, Hd. auto.
Qed.

End HandlerFacts.

Section SubmissionMore.

Variable int_max_str_digits : nat.
Variable transport : Message -> world -> option exn.
Variable strptime : string -> string -> outcome date.
Variable user_email : string.
Variable today : string.
Variable next_id : Z.

Local Abbreviation handler :=
  (vehicle_form int_max_str_digits transport strptime user_email today next_id).
Local Abbreviation audit :=
  (audit_vehicle_mileage_and_alert int_max_str_digits transport).
Local Abbreviation read_date := (parse_date_or_none strptime).
Local Abbreviation draft_id := (draft_id_of int_max_str_digits).
Local Abbreviation fresh := (new_record user_email next_id).
Local Abbreviation parse := (parse_mileage_or_none int_max_str_digits).

(** The row a POST starts from: the user's draft, or a new row. *)
Local Abbreviation base_of req w :=
  (if truthy (draft_id req)
   then draft_of user_email (table w) (default 0 (draft_id req))
   else Some fresh).

(** A POST that goes through, in one equation. *)
Lemma post_commits req w ddate rdate base :
  method req = "POST" ->
  fst (read_date (form req !! "dep_date") w) = Returned ddate ->
  fst (read_date (form req !! "ret_date") w) = Returned rdate ->
  base_of req w = Some base ->
  exists rows,
    handler req w =
      committed int_max_str_digits transport req w rows
        (fill today req ddate rdate base) /\
    (truthy (draft_id req) = true ->
       Query.get (V.id base) (table w) = Some base /\
       V.email base = Some user_email /\
       rows = replace_row (fill today req ddate rdate base) (table w)) /\
    (truthy (draft_id req) = false ->
       base = fresh /\
       rows = insert_row (fill today req ddate rdate base) (table w)).
Proof.
  intros Hm Hd Hr Hb.
  rewrite (post_run _ _ _ _ _ _ req w ddate rdate Hm Hd Hr).
  destruct (truthy (draft_id req)).
  - rewrite Hb. eexists; split; [reflexivity|]. split; [|discriminate].
    intros _. apply draft_of_some in Hb as (Hget & Hmail & _).
    pose proof (get_some _ _ _ Hget) as [_ Hid]. rewrite <- Hid in Hget.
    auto.
  - injection Hb as <-. eexists; split; [reflexivity|].
    split; [discriminate | auto].
Qed.

Lemma stored_row req w ddate rdate base rows :
  (truthy (draft_id req) = true ->
     Query.get (V.id base) (table w) = Some base /\
     V.email base = Some user_email /\
     rows = replace_row (fill today req ddate rdate base) (table w)) ->
  (truthy (draft_id req) = false ->
     base = fresh /\
     rows = insert_row (fill today req ddate rdate base) (table w)) ->
  (truthy (draft_id req) = false -> fresh_id next_id (table w)) ->
  let r := fill today req ddate rdate base in
  Query.get (V.id r) rows = Some r /\
  V.email r = Some user_email /\
  forall i, i <> V.id r -> Query.get i rows = Query.get i (table w).
Proof.
  intros Hdraft Hnew Hfresh r.
  destruct (truthy (draft_id req)).
  - destruct (Hdraft eq_refl) as (Hget & Hmail & ->).
    repeat split.
    + apply (get_replace_row r (table w) base). exact Hget.
    + exact Hmail.
    + intros i Hi. now apply get_replace_row_other.
  - destruct (Hnew eq_refl) as (-> & ->).
    repeat split.
    + apply get_insert_row. exact (Hfresh eq_refl).
    + intros i Hi. now apply get_insert_row_other.
Qed.

(** X12: a POST whose dates are read, for a new record (its id not in use)
    or for a draft of the user, stores the record: afterwards the row of
    that id holds the fields of the form, the id and email it had, the
    status "draft" for the action "save" and "submitted" for any other;
    every row of another id is as before; and for the action "save"
    nothing is printed or mailed and the user is sent to the list of forms. *)
Theorem post_stores_the_record req w ddate rdate base :
  method req = "POST" ->
  fst (read_date (form req !! "dep_date") w) = Returned ddate ->
  fst (read_date (form req !! "ret_date") w) = Returned rdate ->
  base_of req w = Some base ->
  (truthy (draft_id req) = false -> fresh_id next_id (table w)) ->
  let r := fill today req ddate rdate base in
  let w' := snd (handler req w) in
  Query.get (V.id r) (table w') = Some r /\
  V.id r = V.id base /\
  V.email r = Some user_email /\
  V.status r =
    Some (if action_ne (form req !! "action") "save"
          then "submitted" else "draft") /\
  (forall i, i <> V.id r -> Query.get i (table w') = Query.get i (table w)) /\
  (action_ne (form req !! "action") "save" = false ->
   output w' = output w /\
   fst (handler req w) =
     Returned (Redirected (Redirect "user.user_my_forms"))).
Proof.
  intros Hm Hd Hr Hb Hfresh r w'.
  destruct (post_commits req w ddate rdate base Hm Hd Hr Hb)
    as (rows & Hrun & Hdraft & Hnew).
  destruct (stored_row req w ddate rdate base rows Hdraft Hnew Hfresh)
    as (Hget & Hmail & Hother).
  assert (Ht : table w' = rows).
  { unfold w'. rewrite Hrun. unfold committed. simpl.
    destruct (action_ne _ "save"); [|reflexivity].
    apply (audit_table int_max_str_digits transport). }
  rewrite Ht. repeat split; try assumption; try reflexivity.
  - unfold w'. rewrite Hrun. unfold committed. simpl. now rewrite H.
  - rewrite Hrun. unfold committed. simpl. now rewrite H.
Qed.


(** The latest submitted row. *)
Lemma last_submitted_spec rows :
  match last_submitted rows with
  | Some l =>
      In l rows /\ submitted l /\
      forall q, In q rows -> submitted q -> V.id q <= V.id l
  | None => forall q, In q rows -> ~ submitted q
  end.
Proof.
  unfold last_submitted, submitted.
  set (subs := List.filter _ rows).
  assert (Hin : forall q, In q subs <->
                  In q rows /\ V.status q = Some "submitted").
  { intros q. unfold subs. now rewrite filter_In, eq_col_true. }
  destruct (Query.first (Query.order_by_id_desc subs)) as [l|] eqn:Hl.
  - apply first_desc_some in Hl as [Hl Hmax]. apply Hin in Hl as [H1 H2].
    repeat split; try assumption.
    intros q Hq Hs. apply Hmax. apply Hin. tauto.
  - apply first_desc_none in Hl. intros q Hq Hs.
    assert (H : In q subs) by (apply Hin; tauto).
    rewrite Hl in H. destruct H.
  Qed.

(** X14: whenever the form page is shown, the mileage it proposes is the
    end mileage of the submitted row with the largest id in the whole
    table, of whatever vehicle and user, and the empty text when no row is
    submitted; showing the page changes nothing. *)
Theorem form_page_proposes_latest_end_mileage req w last_end_mileage u rec w' :
  handler req w = (Returned (FormPage last_end_mileage u rec), w') ->
  w' = w /\ u = user_email /\
  ((exists l,
      In l (table w) /\ submitted l /\
      (forall q, In q (table w) -> submitted q -> V.id q <= V.id l) /\
      last_end_mileage = V.end_mileage l) \/
   ((forall q, In q (table w) -> ~ submitted q) /\
    last_end_mileage = Some "")).
Proof.
  intros H.
  assert (Hm : method req <> "POST").
  { intros Hm.
    destruct (fst (read_date (form req !! "dep_date") w)) as [ddate|e] eqn:Hd.
    - destruct (fst (read_date (form req !! "ret_date") w)) as [rdate|e] eqn:Hr.
      + rewrite (post_run _ _ _ _ _ _ req w ddate rdate Hm Hd Hr) in H.
        unfold committed in H.
        destruct (truthy (draft_id req));
          [destruct (draft_of user_email (table w) _)|]; discriminate H.
      + rewrite (post_bad_date _ _ _ _ _ _ req w e Hm) in H;
          [discriminate H | right; now exists ddate].
    - rewrite (post_bad_date _ _ _ _ _ _ req w e Hm) in H;
        [discriminate H | now left]. }
  rewrite (get_run _ _ _ _ _ _ req w Hm) in H. simpl in H.
  pose proof (last_submitted_spec (table w)) as Hlast.
  assert (Hpage : forall rec0,
            FormPage
              match last_submitted (table w) with
              | Some last => V.end_mileage last
              | None => Some ""
              end user_email rec0 = FormPage last_end_mileage u rec ->
            u = user_email /\
            ((exists l,
                In l (table w) /\ submitted l /\
                (forall q, In q (table w) -> submitted q -> V.id q <= V.id l) /\
                last_end_mileage = V.end_mileage l) \/
             ((forall q, In q (table w) -> ~ submitted q) /\
              last_end_mileage = Some ""))).
  { intros rec0 [= <- <- _]. split; [reflexivity|].
    destruct (last_submitted (table w)) as [l|].
    - left. exists l. tauto.
    - right. tauto. }
  assert (Hw : w' = w) by congruence.
  split; [exact Hw|].
  assert (Hreply :
    (if truthy (draft_id req)
     then match draft_of user_email (table w) (default 0 (draft_id req)) with
          | Some r =>
              FormPage
                match last_submitted (table w) with
                | Some last => V.end_mileage last
                | None => Some ""
                end user_email (Some r)
          | None => UnauthorizedDraft
          end
     else FormPage
            match last_submitted (table w) with
            | Some last => V.end_mileage last
            | None => Some ""
            end user_email None) = FormPage last_end_mileage u rec)
    by congruence.
  destruct (truthy (draft_id req));
    [destruct (draft_of user_email (table w) _)|];
    first [discriminate Hreply | exact (Hpage _ Hreply)].
Qed.

End SubmissionMore.

(** * The further properties on sample data *)

Lemma truncate_bounded_witness :
  exists shown,
    _truncate (Some "A text of some fifty characters, cut after forty") =
      Some shown /\
    (String.length shown <= 43)%nat /\
    PyStr.take 40 shown =
      PyStr.take 40 "A text of some fifty characters, cut after forty".
Proof.
  destruct (truncate_bounded
              (Some "A text of some fifty characters, cut after forty"))
    as (H & _).
  destruct (H _ eq_refl) as (shown & H1 & H2 & H3 & _).
  exists shown. auto.
Defined.

Lemma mileage_parser_extends_int_witness :
  parse_mileage_or_none 4300 (Some " +1_000 ") = Some 1000.
Proof. apply (mileage_parser_extends_int 4300 " +1_000 " 1000). reflexivity. Defined.

Lemma comma_round_trip_witness :
  comma_format 4300 (fun _ => None) (Some "1234567") = "1,234,567" /\
  parse_mileage_or_none 4300
    (Some (comma_format 4300 (fun _ => None) (Some "1234567"))) =
  Some 1234567.
Proof.
  destruct (comma_round_trip 4300 (fun _ => None) "1234567" 1234567 eq_refl)
    as (H1 & _ & _ & H4).
  split; [exact H1 | exact H4].
Defined.

Lemma overlap_reports_symmetric_witness :
  exists fa fb,
    audit_findings 4300 overlap_rows 5 = Some fa /\
    audit_findings 4300 overlap_rows 10 = Some fb /\
    (In (trip 10 "2022 RAM" "1150" "1250", 1150, 1250) (overlaps fa) <->
     In (trip 5 "2022 RAM" "1100" "1,200", 1100, 1200) (overlaps fb)).
Proof.
  assert (Hpk : primary_key overlap_rows).
  { unfold primary_key; simpl. repeat constructor; simpl; intuition lia. }
  eexists _, _. split; [reflexivity|]. split; [reflexivity|].
  apply (overlap_reports_symmetric 4300 overlap_rows
           (trip 5 "2022 RAM" "1100" "1,200")
           (trip 10 "2022 RAM" "1150" "1250") _ _ "2022 RAM"
           1100 1200 1150 1250 Hpk);
    first [reflexivity | now left | (right; now left) | discriminate].
Defined.

Lemma invalid_mileage_suppresses_overlaps_witness :
  exists f,
    audit_findings 4300 invalid_rows 10 = Some f /\
    (length (issues f) <= 3)%nat /\
    overlaps f = [].
Proof.
  eexists. split; [reflexivity|].
  destruct (invalid_mileage_suppresses_overlaps 4300 invalid_rows 10 _ eq_refl)
    as (H1 & H2 & H3).
  split; [exact H1|]. apply H3. apply H2. now left.
Defined.

Lemma gap_excludes_overlap_with_previous_witness :
  exists f,
    audit_findings 4300 gap_rows 10 = Some f /\
    ~ In (trip 5 "2022 RAM" "1100" "1200", 1100, 1200) (overlaps f).
Proof.
  eexists. split; [reflexivity|].
  apply (gap_excludes_overlap_with_previous 4300 gap_rows 10 _
           (trip 5 "2022 RAM" "1100" "1200") eq_refl);
    [now left | reflexivity].
Defined.

Lemma audit_mails_only_the_alert_address_witness :
  let w' := snd (audit_vehicle_mileage_and_alert 4300 delivering 10
                   (quiet overlap_rows)) in
  exists m,
    In (MailSend m) (output w') /\
    sender m = "yuhuitestict@gmail.com" /\
    recipients m = ["yuhuitestict@gmail.com"].
Proof.
  intros w'. eexists. split; [vm_compute; left; reflexivity|].
  match goal with
  | |- sender ?m = _ /\ _ =>
      destruct (audit_mails_only_the_alert_address 4300 delivering 10
                  (quiet overlap_rows) m) as (_ & H)
  end.
  destruct H as [[]|(H1 & H2 & _)];
    [vm_compute; left; reflexivity | split; assumption].
Defined.

Lemma unreadable_date_stops_the_post_witness :
  let req := ann_post "submit"
               (("dep_date", "7 March") :: trip_fields "2022 RAM" "1" "2") in
  vehicle_form 4300 delivering no_dates "ann@example.org" "03-07-2024" 11
    req (quiet shared_rows) =
  (Raised (Exception "ValueError()"), quiet shared_rows).
Proof.
  intros req.
  apply (unreadable_date_stops_the_post 4300 delivering no_dates
           "ann@example.org" "03-07-2024" 11 req (quiet shared_rows));
    [reflexivity | left; reflexivity].
Defined.

Lemma foreign_record_refused_witness :
  user_view_form "ann@example.org" 7 (quiet shared_rows) =
    (Returned Unauthorized, quiet shared_rows) /\
  snd (vehicle_form 4300 delivering no_dates "ann@example.org" "03-07-2024"
         11 ann_get_draft_7 (quiet shared_rows)) = quiet shared_rows.
Proof.
  destruct (foreign_record_refused 4300 delivering no_dates "ann@example.org"
              "03-07-2024" 11 ann_get_draft_7 7 bob_trip (quiet shared_rows))
    as (H1 & H2); [reflexivity | discriminate |].
  split; [exact H1|]. apply H2; [reflexivity | discriminate].
Defined.

Lemma post_stores_the_record_witness :
  let req := ann_post "save" (trip_fields "2022 RAM" "1200" "1300") in
  let w' := snd (vehicle_form 4300 delivering no_dates "ann@example.org"
                   "03-07-2024" 11 req (quiet shared_rows)) in
  exists r,
    Query.get 11 (table w') = Some r /\
    V.status r = Some "draft" /\
    V.start_mileage r = Some "1200" /\
    Query.get 7 (table w') = Some bob_trip /\
    output w' = [].
Proof.
  intros req w'.
  destruct (post_stores_the_record 4300 delivering no_dates "ann@example.org"
              "03-07-2024" 11 req (quiet shared_rows) None None
              (new_record "ann@example.org" 11))
    as (H1 & _ & _ & H4 & H5 & H6);
    try reflexivity.
  { intros _ r [<-|[<-|[]]]; discriminate. }
  eexists. split; [exact H1|]. split; [exact H4|].
  split; [reflexivity|]. split.
  - rewrite H5; [reflexivity | discriminate].
  - apply H6. reflexivity.
Defined.


Lemma form_page_proposes_latest_end_mileage_witness :
  exists l,
    In l shared_rows /\ submitted l /\
    (forall q, In q shared_rows -> submitted q -> V.id q <= V.id l) /\
    Some "90" = V.end_mileage l.
Proof.
  destruct (form_page_proposes_latest_end_mileage 4300 delivering no_dates
              "ann@example.org" "03-07-2024" 11 ann_get (quiet shared_rows)
              (Some "90") "ann@example.org" None (quiet shared_rows) eq_refl)
    as (_ & _ & [H | [_ H]]).
  - exact H.
  - discriminate H.
Defined.
